(** * icenet.deep.dbnf: density estimation with Block Neural Autoregressive Flows

    A shallow embedding of [src/icenet/deep/dbnf.py]: the log-density of a
    flow ([compute_log_p_x], [get_pdf]), the two-density likelihood ratio
    ([predict]), the weighted-likelihood training loop ([train], [lossfunc])
    and the construction of the network ([create_model]).

    Numbers.  The tensors of the program hold IEEE floating-point numbers.
    They are modelled by [num]: a real number or one of the special values
    +inf, -inf and NaN.  The special values follow the IEEE-754 rules; on
    finite values the arithmetic is exact (no rounding, no overflow, no
    underflow, and zero carries no sign).  "Equal within tolerance" in the
    specification therefore reads as equality here. *)

From Stdlib Require Import Reals Lra Lia ZArith Bool DecimalString String List.
Import ListNotations.

Set Implicit Arguments.

(** ** Numbers *)

Module Num.

Local Open Scope R_scope.

Inductive num : Type :=
| Fin (r : R)
| PInf
| NInf
| NaN.

Definition sign (r : R) : comparison :=
  if Rlt_dec r 0 then Lt else if Rlt_dec 0 r then Gt else Eq.

(** Sign of a number that is not NaN. *)
Definition num_sign (a : num) : comparison :=
  match a with
  | Fin r => sign r
  | PInf => Gt
  | NInf => Lt
  | NaN => Eq
  end.

Definition mul_sign (s t : comparison) : comparison :=
  match s, t with
  | Eq, _ | _, Eq => Eq
  | Gt, Gt | Lt, Lt => Gt
  | _, _ => Lt
  end.

(** The infinity of a sign; an undetermined sign (0 * inf, 0 / 0) is NaN. *)
Definition inf_of (s : comparison) : num :=
  match s with
  | Gt => PInf
  | Lt => NInf
  | Eq => NaN
  end.

Definition isnan (a : num) : bool :=
  match a with NaN => true | _ => false end.

Definition isfinite (a : num) : bool :=
  match a with Fin _ => true | _ => false end.

Definition neg (a : num) : num :=
  match a with
  | Fin r => Fin (- r)
  | PInf => NInf
  | NInf => PInf
  | NaN => NaN
  end.

Definition add (a b : num) : num :=
  match a, b with
  | NaN, _ | _, NaN => NaN
  | Fin x, Fin y => Fin (x + y)
  | PInf, NInf | NInf, PInf => NaN
  | PInf, _ | _, PInf => PInf
  | NInf, _ | _, NInf => NInf
  end.

Definition sub (a b : num) : num := add a (neg b).

Definition mul (a b : num) : num :=
  match a, b with
  | NaN, _ | _, NaN => NaN
  | Fin x, Fin y => Fin (x * y)
  | _, _ => inf_of (mul_sign (num_sign a) (num_sign b))
  end.

(** Division; a zero divisor counts as +0. *)
Definition div (a b : num) : num :=
  match a, b with
  | NaN, _ | _, NaN => NaN
  | Fin x, Fin y =>
      match sign y with
      | Eq => inf_of (sign x)
      | _ => Fin (x / y)
      end
  | Fin _, _ => Fin 0
  | _, Fin y =>
      inf_of (mul_sign (num_sign a) (match sign y with Eq => Gt | s => s end))
  | _, _ => NaN
  end.

(** [x ** 2] *)
Definition sqr (a : num) : num := mul a a.

Definition exp (a : num) : num :=
  match a with
  | Fin r => Fin (Rtrigo_def.exp r)
  | PInf => PInf
  | NInf => Fin 0
  | NaN => NaN
  end.

Definition log (a : num) : num :=
  match a with
  | Fin r =>
      match sign r with
      | Gt => Fin (ln r)
      | Eq => NInf
      | Lt => NaN
      end
  | PInf => PInf
  | NInf | NaN => NaN
  end.

(** [a >= b]; false as soon as one side is NaN. *)
Definition ge (a b : num) : bool :=
  match a, b with
  | NaN, _ | _, NaN => false
  | PInf, _ | _, NInf => true
  | Fin x, Fin y => if Rle_dec y x then true else false
  | _, _ => false
  end.

End Num.

Import Num.

(** ** Tensors and errors *)

(** A 1-dimensional tensor or array, shape (N,). *)
Definition Tensor1 := list num.
(** A 2-dimensional tensor, shape (N, D): one row per sample. *)
Definition Tensor2 := list (list num).

(** The Python exceptions the embedded code can raise. *)
Inductive exn : Type :=
| IndexError
| RuntimeError
| ZeroDivisionError
| UnboundLocalError (name : string).

Inductive result (A : Type) : Type :=
| Ok (a : A)
| Err (e : exn).
Arguments Ok {A} a.
Arguments Err {A} e.

Fixpoint zip_with {A B C : Type} (f : A -> B -> C) (l : list A) (l' : list B)
  : list C :=
  match l, l' with
  | a :: t, b :: t' => f a b :: zip_with f t t'
  | _, _ => []
  end.

(** [torch.sum] of a 1-dimensional tensor, [t.sum(dim=-1)] of a row. *)
Definition tsum (t : Tensor1) : num := fold_left add t (Fin 0).

(** The sum of a list of real numbers. *)
Fixpoint Rsum (l : list R) : R :=
  match l with
  | [] => 0%R
  | r :: t => (r + Rsum t)%R
  end.

Definition zeros_like (y : Tensor2) : Tensor2 := map (map (fun _ => Fin 0)) y.
Definition ones_like (y : Tensor2) : Tensor2 := map (map (fun _ => Fin 1)) y.

(** ** The base distribution *)

Module Normal.

Local Open Scope R_scope.

(** [torch.distributions.Normal(loc, scale).log_prob(value)] on one entry:
    [-((value - loc) ** 2) / (2 * var) - log_scale - log(sqrt(2 * pi))]
    with [var = scale ** 2] and [log_scale = scale.log()].  The argument
    validation that the distribution classes can run is not part of the
    model. *)
Definition log_prob1 (loc scale value : num) : num :=
  let var := sqr scale in
  let log_scale := log scale in
  sub (sub (div (neg (sqr (sub value loc))) (mul (Fin 2) var)) log_scale)
      (Fin (ln (sqrt (2 * PI)))).

(** ... and on tensors of one shape, entry by entry. *)
Definition log_prob (loc scale value : Tensor2) : Tensor2 :=
  zip_with (fun ls v => zip_with (fun l sv => log_prob1 l (fst sv) (snd sv))
                                 (fst ls) (combine (snd ls) v))
           (combine loc scale) value.

(** The density of the standard Gaussian on the real line. *)
Definition std_pdf (t : R) : R := Rtrigo_def.exp (- (t * t) / 2) / sqrt (2 * PI).

(** The logarithm of that density; the density vanishes at both
    infinities. *)
Definition std_log_pdf (y : num) : num :=
  match y with
  | Fin t => Fin (ln (std_pdf t))
  | PInf | NInf => NInf
  | NaN => NaN
  end.

End Normal.

(** ** compute_log_p_x, get_pdf *)

(** A model (a flow) maps a sample [x] to the transformed point [y] and the
    accumulated log-determinant [log_diag]; it acts on a batch row by row. *)
Definition Model := list num -> list num * num.

(** [model(x)] on a batch: [(y, log_diag)] of shapes (N, D) and (N,). *)
Definition call (model : Model) (x : Tensor2) : Tensor2 * Tensor1 :=
  (map (fun row => fst (model row)) x, map (fun row => snd (model row)) x).

Definition compute_log_p_x (model : Model) (x : Tensor2) : Tensor1 :=
  let '(y, log_diag) := call model x in
  let log_p_y := map tsum (Normal.log_prob (zeros_like y) (ones_like y) y) in
  zip_with add log_p_y log_diag.

Definition get_pdf (model : Model) (x : Tensor2) : Tensor1 :=
  map exp (compute_log_p_x model x).

(** The log-density of one sample, in the words of the specification:
    [log N(y; 0, I) + log_diag]. *)
Definition log_p_row (model : Model) (row : list num) : num :=
  add (tsum (map Normal.std_log_pdf (fst (model row)))) (snd (model row)).

(** ** Errors as results *)

Definition rbind {A B : Type} (r : result A) (k : A -> result B) : result B :=
  match r with
  | Ok a => k a
  | Err e => Err e
  end.

Notation "'let?' x ':=' r 'in' k" := (rbind r (fun x => k))
  (at level 10, x pattern, r at level 100, k at level 200).

(** [l[i]] on a Python list. *)
Definition getitem {A : Type} (l : list A) (i : nat) : result A :=
  match nth_error l i with
  | Some a => Ok a
  | None => Err IndexError
  end.

(** A keyword argument left out takes its default. *)
Definition kwarg {A : Type} (default : A) (given : option A) : A :=
  match given with
  | Some a => a
  | None => default
  end.

(** ** predict *)

(** [np.maximum(a, b)] on one entry: the larger one, NaN if either is. *)
Definition np_maximum (a b : num) : num :=
  if ge a b || isnan a then a else b.

(** [np.clip(a, a_min, None)] *)
Definition np_clip_min (a : Tensor1) (a_min : num) : Tensor1 :=
  map (fun v => np_maximum v a_min) a.

(** [out[~np.isfinite(out)] = 0] *)
Definition zero_nonfinite (out : Tensor1) : Tensor1 :=
  map (fun v => if negb (isfinite v) then Fin 0 else v) out.

Definition EPS_default : num := Fin (1 / 10 ^ 9).

(** The value of [out] before the non-finite entries are overwritten. *)
Definition predict_ratio (sgn_pdf bgk_pdf : Tensor1) (return_prob : bool)
  (EPS : num) : Tensor1 :=
  if return_prob
  then zip_with div sgn_pdf (np_clip_min (zip_with add sgn_pdf bgk_pdf) EPS)
  else zip_with div sgn_pdf (np_clip_min bgk_pdf EPS).

(** [predict(X, models, return_prob=True, EPS=1E-9)] *)
Definition predict (X : Tensor2) (models : list Model)
  (return_prob : option bool) (EPS : option num) : result Tensor1 :=
  let return_prob := kwarg true return_prob in
  let EPS := kwarg EPS_default EPS in
  let? m0 := getitem models 0 in
  let bgk_pdf := get_pdf m0 X in
  let? m1 := getitem models 1 in
  let sgn_pdf := get_pdf m1 X in
  let out := predict_ratio sgn_pdf bgk_pdf return_prob EPS in
  Ok (zero_nonfinite out).

(** One entry of the output in the words of the specification:
    [pdf_S / clip(pdf_S + pdf_B, EPS, inf)] if [return_prob], else
    [pdf_S / clip(pdf_B, EPS, inf)]. *)
Definition ratio1 (return_prob : bool) (EPS : num) (pdf_S pdf_B : num) : num :=
  if return_prob
  then div pdf_S (np_maximum (add pdf_S pdf_B) EPS)
  else div pdf_S (np_maximum pdf_B EPS).

(** The non-finite values replaced by zero. *)
Definition finite_or_zero (r : num) : num :=
  if isfinite r then r else Fin 0.

(** Two models to evaluate [predict] on: the flow that leaves its input
    unchanged, whose density is the standard Gaussian, and a flow whose
    log-determinant has overflowed. *)
Definition identity_flow : Model := fun row => (row, Fin 0).
Definition overflowing_flow : Model := fun row => (row, PInf).

(** ** Dataset *)

Record Dataset : Type := mkDataset { X : Tensor2; W : Tensor1 }.

Definition Dataset_len (d : Dataset) : nat := length (X d).

(** [t[index]] for a list of indices. *)
Fixpoint gather {A : Type} (t : list A) (index : list nat) : result (list A) :=
  match index with
  | [] => Ok []
  | i :: rest =>
      let? a := getitem t i in
      let? r := gather t rest in
      Ok (a :: r)
  end.

(** [Dataset.__getitem__]: [self.X[index,...], self.W[index]] *)
Definition Dataset_getitem (d : Dataset) (index : list nat)
  : result (Tensor2 * Tensor1) :=
  let? x := gather (X d) index in
  let? w := gather (W d) index in
  Ok (x, w).

(** ** lossfunc *)

(** An entrywise operation on two 1-dimensional tensors, with the
    broadcasting of a tensor of one entry. *)
Definition broadcast (f : num -> num -> num) (a b : Tensor1) : result Tensor1 :=
  if Nat.eqb (length a) (length b) then Ok (zip_with f a b)
  else match a, b with
       | [a0], _ => Ok (map (f a0) b)
       | _, [b0] => Ok (map (fun v => f v b0) a)
       | _, _ => Err RuntimeError
       end.

Definition lossfunc (model : Model) (x : Tensor2) (weights : Tensor1)
  : result num :=
  let w := map (fun wi => div wi (tsum weights)) weights in
  let lossvec := compute_log_p_x model x in
  let? prod := broadcast mul lossvec w in
  Ok (neg (tsum prod)).

(** [torch.stack(losses).mean()]; stacking an empty list is an error. *)
Definition stack_mean (losses : list num) : result num :=
  match losses with
  | [] => Err RuntimeError
  | _ => Ok (div (tsum losses) (Fin (INR (length losses))))
  end.

(** ** The training loop *)

(** What [train] reads of [param]: [param['opt_param']['start_epoch']],
    [param['opt_param']['epochs']], [param['opt_param']['clip_norm']] and
    [param['evalmode']].  The batch sizes and the number of workers only
    reach the samplers; the device, the printed lines and the tensorboard
    writer are left out. *)
Record param : Type := mkParam {
  start_epoch : Z;
  epochs : Z;
  clip_norm : num;
  evalmode : Z
}.

(** The collaborators of [train]: the parameters of the model and the
    function it computes with them, the optimizer, the scheduler and the
    two samplers.  [optimizer_update] is what [optimizer.zero_grad()],
    [loss.backward()], [clip_grad_norm_] and [optimizer.step()] do with one
    batch to the live parameters, the second parameter snapshot and the rest
    of the optimizer state.  [trn_sampler epoch] and [val_sampler epoch] are
    the batches of indices that [BatchSampler(RandomSampler(...))] draws
    in that epoch. *)
Class Collaborators : Type := {
  Params : Type;
  OptState : Type;
  SchedState : Type;
  forward : Params -> Model;
  optimizer_update :
    num -> Tensor2 -> Tensor1 -> Params * Params * OptState ->
    Params * Params * OptState;
  scheduler_step : SchedState * OptState -> num -> SchedState * OptState * bool;
  trn_sampler : Z -> list (list nat);
  val_sampler : Z -> list (list nat)
}.

(** Which of the two parameter snapshots the model computes with. *)
Inductive View : Type := RAW | AVERAGED.

Definition toggle (v : View) : View :=
  match v with RAW => AVERAGED | AVERAGED => RAW end.

(** The calls [train] makes, in the order it makes them. *)
Inductive Event : Type :=
| ModelTrain (epoch : Z)
| OptimizerStep
| OptimizerSwap
| ModelEval
| SchedulerStep
| Save (filename : string).

Definition is_swap (ev : Event) : bool :=
  match ev with OptimizerSwap => true | _ => false end.

Definition count_swaps (tr : list Event) : nat :=
  List.length (filter is_swap tr).

(** The live view after a sequence of calls that started on the raw
    parameters: every [optimizer.swap()] exchanges the two snapshots. *)
Definition view_after (tr : list Event) : View :=
  fold_left (fun v ev => if is_swap ev then toggle v else v) tr RAW.

(** The live view at each [model.train()], that is at the start of the
    training phase of each epoch. *)
Fixpoint views_at_train (v : View) (tr : list Event) : list (Z * View) :=
  match tr with
  | [] => []
  | ModelTrain epoch :: rest => (epoch, v) :: views_at_train v rest
  | OptimizerSwap :: rest => views_at_train (toggle v) rest
  | _ :: rest => views_at_train v rest
  end.

(** ** Well-formed runs *)

(** Every index the sampler draws is an index of the data. *)
Definition in_range (x : Tensor2) (loader : list (list nat)) : Prop :=
  Forall (Forall (fun i => (i < List.length x)%nat)) loader.

(** Weights that are given come one per sample. *)
Definition weights_fit (weights : option Tensor1) (x : Tensor2) : Prop :=
  match weights with
  | None => True
  | Some w => List.length w = List.length x
  end.

(** [epoch == 0 or epoch % evalmode == 0], for a non-zero [evalmode]. *)
Definition validated (epoch evalmode : Z) : bool :=
  ((epoch =? 0) || (epoch mod evalmode =? 0))%Z.

(** The calls of one epoch that runs to its end with [n] training batches. *)
Definition epoch_calls (epoch : Z) (n : nat) (validation : bool)
  (filename : string) : list Event :=
  ModelTrain epoch
    :: repeat OptimizerStep n
    ++ OptimizerSwap
    :: (if validation then [ModelEval; OptimizerSwap] else [])
    ++ [SchedulerStep; Save filename].

Section Training.

Context {C : Collaborators}.

(** Modelled from the spec: [aux_torch.save_torch_model] is not in the
    sources; a checkpoint holds the model parameters, the optimizer
    parameters, the epoch index and the two loss histories it is called
    with. *)
Record Checkpoint : Type := mkCheckpoint {
  ck_model : Params;
  ck_optimizer : OptState * Params;
  ck_epoch : Z;
  ck_trn_losses : list num;
  ck_val_losses : list num
}.

(** The state [train] works on.  [validation_loss] is the local variable of
    that name, [None] while nothing is bound to it; [saved] are the files
    written so far and [trace] the calls made so far. *)
Record St : Type := mkSt {
  live : Params;
  shadow : Params;
  opt : OptState;
  sched : SchedState;
  trn_losses : list num;
  val_losses : list num;
  validation_loss : option num;
  saved : list (string * Checkpoint);
  trace : list Event
}.

Definition M (A : Type) : Type := St -> St * result A.

Definition ret {A : Type} (a : A) : M A := fun st => (st, Ok a).

Definition bind {A B : Type} (m : M A) (k : A -> M B) : M B :=
  fun st =>
    match m st with
    | (st', Ok a) => k a st'
    | (st', Err e) => (st', Err e)
    end.

Definition lift {A : Type} (r : result A) : M A := fun st => (st, r).

Definition gets {A : Type} (f : St -> A) : M A := fun st => (st, Ok (f st)).

Definition modify (f : St -> St) : M unit := fun st => (f st, Ok tt).

Definition emit (ev : Event) : M unit :=
  modify (fun s => mkSt (live s) (shadow s) (opt s) (sched s) (trn_losses s)
                        (val_losses s) (validation_loss s) (saved s)
                        (trace s ++ [ev])).

End Training.

Declare Scope train_scope.
Delimit Scope train_scope with train.
Notation "x <- m ;; k" := (bind m (fun x => k))
  (at level 61, m at next level, right associativity) : train_scope.
Notation "m ;; k" := (bind m (fun _ => k))
  (at level 61, right associativity) : train_scope.

Section TrainingLoop.

Context {C : Collaborators}.

Local Open Scope train_scope.

(** Modelled from the spec: the optimizer class is not in the sources;
    [optimizer.swap()] exchanges the parameters of the model with the
    second snapshot the optimizer keeps. *)
Definition optimizer_swap : M unit :=
  modify (fun s => mkSt (shadow s) (live s) (opt s) (sched s) (trn_losses s)
                        (val_losses s) (validation_loss s) (saved s) (trace s)) ;;
  emit OptimizerSwap.

(** [optimizer.zero_grad(); loss.backward(); clip_grad_norm_(...);
    optimizer.step()] *)
Definition optimizer_step (max_norm : num) (x : Tensor2) (w : Tensor1) : M unit :=
  modify (fun s =>
            let '(l, sh, o) := optimizer_update max_norm x w (live s, shadow s, opt s) in
            mkSt l sh o (sched s) (trn_losses s) (val_losses s)
                 (validation_loss s) (saved s) (trace s)) ;;
  emit OptimizerStep.

(** [lossfunc(model=model, x=batch_x, weights=batch_weights)] with the live
    parameters. *)
Definition loss_of (x : Tensor2) (w : Tensor1) : M num :=
  fun s => (s, lossfunc (forward (live s)) x w).

(** [for batch_x, batch_weights in training_loader: ...] *)
Fixpoint training_batches (training_set : Dataset) (max_norm : num)
  (loader : list (list nat)) (train_loss : list num) : M (list num) :=
  match loader with
  | [] => ret train_loss
  | index :: rest =>
      b <- lift (Dataset_getitem training_set index) ;;
      loss <- loss_of (fst b) (snd b) ;;
      optimizer_step max_norm (fst b) (snd b) ;;
      training_batches training_set max_norm rest (train_loss ++ [loss])
  end.

(** [for batch_x, batch_weights in validation_loader: ...] *)
Fixpoint validation_batches (validation_set : Dataset)
  (loader : list (list nat)) (validation_loss : list num) : M (list num) :=
  match loader with
  | [] => ret validation_loss
  | index :: rest =>
      b <- lift (Dataset_getitem validation_set index) ;;
      loss <- loss_of (fst b) (snd b) ;;
      validation_batches validation_set rest (validation_loss ++ [loss])
  end.

(** [epoch == 0 or (epoch % param['evalmode']) == 0] *)
Definition validates (epoch evalmode : Z) : result bool :=
  if (epoch =? 0)%Z then Ok true
  else if (evalmode =? 0)%Z then Err ZeroDivisionError
  else Ok (epoch mod evalmode =? 0)%Z.

(** Reading the local variable [validation_loss]. *)
Definition read_validation_loss : M num :=
  fun s =>
    match validation_loss s with
    | Some v => (s, Ok v)
    | None => (s, Err (UnboundLocalError "validation_loss"))
    end.

(** [str(epoch)] *)
Definition str (n : Z) : string := NilZero.string_of_int (Z.to_int n).

(** [f'{modeldir}/{save_name}_{epoch}.pth'] *)
Definition checkpoint_name (modeldir save_name : string) (epoch : Z) : string :=
  (modeldir ++ "/" ++ save_name ++ "_" ++ str epoch ++ ".pth")%string.

(** [aux_torch.save_torch_model(model, optimizer, epoch, losses, filename)()] *)
Definition save_torch_model (epoch : Z) (filename : string) : M unit :=
  modify (fun s =>
            mkSt (live s) (shadow s) (opt s) (sched s) (trn_losses s)
                 (val_losses s) (validation_loss s)
                 (saved s ++ [(filename,
                               mkCheckpoint (live s) (opt s, shadow s) epoch
                                            (trn_losses s) (val_losses s))])
                 (trace s)) ;;
  emit (Save filename).

(** The validation phase, lines 207 to 223. *)
Definition validation_phase (validation_set : Dataset) (epoch : Z) : M unit :=
  emit ModelEval ;;
  losses <- validation_batches validation_set (val_sampler epoch) [] ;;
  v <- lift (stack_mean losses) ;;
  modify (fun s => mkSt (live s) (shadow s) (opt s) (sched s) (trn_losses s)
                        (val_losses s) (Some v) (saved s) (trace s)) ;;
  optimizer_swap.

(** The training phase, lines 179 to 200; its result is [train_loss]. *)
Definition training_phase (p : param) (training_set : Dataset) (epoch : Z)
  : M num :=
  emit (ModelTrain epoch) ;;
  losses <- training_batches training_set (clip_norm p) (trn_sampler epoch) [] ;;
  train_loss <- lift (stack_mean losses) ;;
  optimizer_swap ;;
  ret train_loss.

(** [trn_losses.append(train_loss.item())] *)
Definition append_trn_loss (train_loss : num) : M unit :=
  modify (fun s => mkSt (live s) (shadow s) (opt s) (sched s)
                        (trn_losses s ++ [train_loss])
                        (val_losses s) (validation_loss s) (saved s) (trace s)).

(** [val_losses.append(validation_loss.item())] *)
Definition append_val_loss : M num :=
  vl <- read_validation_loss ;;
  modify (fun s => mkSt (live s) (shadow s) (opt s) (sched s) (trn_losses s)
                        (val_losses s ++ [vl]) (validation_loss s) (saved s)
                        (trace s)) ;;
  ret vl.

(** [stop = scheduler.step(validation_loss)] *)
Definition scheduler_call (vl : num) : M bool :=
  fun s =>
    let '(sc, o, stop) := scheduler_step (sched s, opt s) vl in
    (mkSt (live s) (shadow s) o sc (trn_losses s) (val_losses s)
          (validation_loss s) (saved s) (trace s ++ [SchedulerStep]),
     Ok stop).

(** The rest of the body, lines 228 to 248: the metrics, the scheduler and
    the checkpoint; its result is [stop]. *)
Definition checkpoint_phase (modeldir save_name : string) (epoch : Z)
  (train_loss : num) : M bool :=
  append_trn_loss train_loss ;;
  vl <- append_val_loss ;;
  stop <- scheduler_call vl ;;
  save_torch_model epoch (checkpoint_name modeldir save_name epoch) ;;
  ret stop.

(** The body of the loop over the epochs; its result is [stop]. *)
Definition epoch_body (p : param) (training_set validation_set : Dataset)
  (modeldir save_name : string) (epoch : Z) : M bool :=
  train_loss <- training_phase p training_set epoch ;;
  v <- lift (validates epoch (evalmode p)) ;;
  (if v : bool then validation_phase validation_set epoch else ret tt) ;;
  checkpoint_phase modeldir save_name epoch train_loss.

(** [for epoch in range(...): ...; if stop: break] *)
Fixpoint epoch_loop (p : param) (training_set validation_set : Dataset)
  (modeldir save_name : string) (epochs_left : list Z) : M unit :=
  match epochs_left with
  | [] => ret tt
  | epoch :: rest =>
      stop <- epoch_body p training_set validation_set modeldir save_name epoch ;;
      if stop : bool then ret tt
      else epoch_loop p training_set validation_set modeldir save_name rest
  end.

(** [range(a, b)] *)
Definition range (a b : Z) : list Z :=
  map (fun i => (a + Z.of_nat i)%Z) (seq 0 (Z.to_nat (b - a))).

(** [torch.ones(n)] *)
Definition ones (n : nat) : Tensor1 := repeat (Fin 1%R) n.

(** [train]: the result is the state it leaves behind and either [Ok tt] or
    the exception that ended it. *)
Definition train (model : Params) (optimizer : OptState * Params)
  (scheduler : SchedState) (trn_x val_x : Tensor2)
  (trn_weights val_weights : option Tensor1) (p : param)
  (modeldir save_name : string) : St * result unit :=
  let trn_weights :=
    match trn_weights with
    | None => ones (List.length trn_x)
    | Some w => w
    end in
  let val_weights :=
    match val_weights with
    | None => ones (List.length val_x)
    | Some w => w
    end in
  let training_set := mkDataset trn_x trn_weights in
  let validation_set := mkDataset val_x val_weights in
  epoch_loop p training_set validation_set modeldir save_name
             (range (start_epoch p) (start_epoch p + epochs p))
             (mkSt model (snd optimizer) (fst optimizer) scheduler [] [] None [] []).

(** What the loops over the batches leave as it is. *)
Definition locals_kept (s s' : St) : Prop :=
  sched s' = sched s
  /\ trn_losses s' = trn_losses s
  /\ val_losses s' = val_losses s
  /\ validation_loss s' = validation_loss s
  /\ saved s' = saved s.

(** The loaders of a run are in order: in every epoch each sampler draws at
    least one batch, and only indices of its data. *)
Definition loaders_ok (trn_x val_x : Tensor2) : Prop :=
  forall epoch,
    trn_sampler epoch <> [] /\ in_range trn_x (trn_sampler epoch)
    /\ val_sampler epoch <> [] /\ in_range val_x (val_sampler epoch).

(** What an epoch that runs to its end does: the calls it makes, the two
    losses it appends, and the checkpoint it writes. *)
Definition epoch_step (p : param) (modeldir save_name : string) (epoch : Z)
  (s s' : St) : Prop :=
  let filename := checkpoint_name modeldir save_name epoch in
  let v := validated epoch (evalmode p) in
  trace s' = trace s ++ epoch_calls epoch (List.length (trn_sampler epoch)) v filename
  /\ (exists train_loss, trn_losses s' = trn_losses s ++ [train_loss])
  /\ (exists vl,
        val_losses s' = val_losses s ++ [vl]
        /\ validation_loss s' = Some vl
        /\ (v = false -> validation_loss s = Some vl))
  /\ saved s' = saved s ++ [(filename,
                             mkCheckpoint (live s') (opt s', shadow s') epoch
                                          (trn_losses s') (val_losses s'))].

(** A sequence of epochs that run to their ends, one after the other. *)
Inductive epochs_run (p : param) (modeldir save_name : string)
  : list Z -> St -> St -> Prop :=
| run_nil (s : St) : epochs_run p modeldir save_name [] s s
| run_cons (epoch : Z) (rest : list Z) (s s1 s2 : St) :
    epoch_step p modeldir save_name epoch s s1 ->
    epochs_run p modeldir save_name rest s1 s2 ->
    epochs_run p modeldir save_name (epoch :: rest) s s2.

End TrainingLoop.

(** ** Collaborators of an example *)

(** Collaborators to run [train] with: a model without parameters that
    computes the identity flow, an optimizer that leaves everything as it
    is, a scheduler that never stops, and samplers that draw the one batch
    of the one sample with index 0. *)
Definition still : Collaborators := {|
  Params := unit;
  OptState := unit;
  SchedState := unit;
  forward := fun _ => identity_flow;
  optimizer_update := fun _ _ _ s => s;
  scheduler_step := fun s _ => (s, false);
  trn_sampler := fun _ => [[0%nat]];
  val_sampler := fun _ => [[0%nat]]
|}.

(** [train] on these collaborators, with one training sample and one
    validation sample at the origin, no weights, and the epochs of [p]. *)
Definition still_run (p : param) : St (C := still) * result unit :=
  train (C := still) tt (tt, tt) tt [[Fin 0]] [[Fin 0]] None None p
        "checkpoint" "dbnf".

(** ** create_model *)

(** Modelled from the spec: the classes of [bnaf.py] ([MaskedWeight],
    [Tanh], [BNAF], [Permutation], [Sequential]) are not in the sources.  A
    network is described by the constructor calls that build it, each with
    the arguments [create_model] passes. *)
Inductive Layer : Type :=
| MaskedWeight (in_features out_features dim : Z)
| Tanh.

Inductive Flow : Type :=
| BNAF (layers : list Layer) (res : option string)
| Permutation (in_features : Z) (p : string).

Inductive Network : Type :=
| Sequential (flows : list Flow).

(** [param] of [create_model]; [residual] is [None] or the name of the
    residual connection. *)
Record model_param : Type := mkModelParam {
  n_dims : Z;
  hidden_dim : Z;
  layers : Z;
  flows : Z;
  residual : option string;
  perm : string
}.

(** [for _ in range(param['layers']): layers.append(...); layers.append(Tanh())] *)
Definition block_layers (mp : model_param) : list Layer :=
  fold_left
    (fun layers _ =>
       (layers ++ [MaskedWeight (n_dims mp * hidden_dim mp)
                                (n_dims mp * hidden_dim mp) (n_dims mp)])
         ++ [Tanh])
    (range 0 (layers mp)) [].

(** The layers handed to [BNAF]. *)
Definition block_body (mp : model_param) : list Layer :=
  [MaskedWeight (n_dims mp) (n_dims mp * hidden_dim mp) (n_dims mp); Tanh]
    ++ block_layers mp
    ++ [MaskedWeight (n_dims mp * hidden_dim mp) (n_dims mp) (n_dims mp)].

(** The flow block of index [f]. *)
Definition block (mp : model_param) (f : Z) : Flow :=
  BNAF (block_body mp) (if (f <? flows mp - 1)%Z then residual mp else None).

(** One turn of [for f in range(param['flows'])]. *)
Definition add_flow (mp : model_param) (flows_so_far : list Flow) (f : Z)
  : list Flow :=
  let flows_so_far := flows_so_far ++ [block mp f] in
  if (f <? flows mp - 1)%Z
  then flows_so_far ++ [Permutation (n_dims mp) (perm mp)]
  else flows_so_far.

(** [create_model(param)]; the seed of the random permutations and the
    printed summary are left out. *)
Definition create_model (mp : model_param) : Network :=
  Sequential (fold_left (add_flow mp) (range 0 (flows mp)) []).

(** The network in the words of the specification: [n] flow blocks with the
    residual of [param], each followed by a permutation, ... *)
Fixpoint interior (mp : model_param) (n : nat) : list Flow :=
  match n with
  | O => []
  | S k =>
      BNAF (block_body mp) (residual mp)
        :: Permutation (n_dims mp) (perm mp) :: interior mp k
  end.

(** ... and a last flow block without residual. *)
Definition separated_blocks (mp : model_param) : list Flow :=
  interior mp (Z.to_nat (flows mp - 1)) ++ [BNAF (block_body mp) None].

(** The parameters of an example: two dimensions, three flows. *)
Definition example_param : model_param :=
  mkModelParam 2 4 1 3 (Some "gated"%string) "rand"%string.

Definition flows_of (n : Network) : list Flow :=
  match n with Sequential fl => fl end.

Definition is_BNAF (f : Flow) : bool :=
  match f with BNAF _ _ => true | _ => false end.

Definition is_Permutation (f : Flow) : bool :=
  match f with Permutation _ _ => true | _ => false end.


(** * More of the code: definitions *)

From Stdlib Require DecimalPos DecimalZ Finite.

(** An index outside the features or outside the weights of a data set. *)
Definition out_of_range (d : Dataset) (i : nat) : Prop :=
  (List.length (X d) <= i)%nat \/ (List.length (W d) <= i)%nat.

(** The product of a list of real numbers. *)
Fixpoint Rprod (l : list R) : R :=
  match l with
  | [] => 1%R
  | r :: t => (r * Rprod t)%R
  end.

(** The width that a list of layers returns when it is fed the width [d]:
    [Tanh] keeps the width, [MaskedWeight(in_features, out_features, dim)]
    takes [in_features] to [out_features]; [None] where a layer is fed a
    width it does not take. *)
Fixpoint output_width (d : Z) (l : list Layer) : option Z :=
  match l with
  | [] => Some d
  | Tanh :: t => output_width d t
  | MaskedWeight i o _ :: t =>
      if (i =? d)%Z then output_width o t else None
  end.

(** The [dim] argument of a layer that has one. *)
Definition layer_dim_is (n : Z) (l : Layer) : Prop :=
  match l with
  | MaskedWeight _ _ dim => dim = n
  | Tanh => True
  end.

(** Two more sets of collaborators for examples: as [still], but with a
    training sampler that draws no batch, and with a scheduler that says
    stop at every step. *)
Definition no_batches : Collaborators := {|
  Params := unit;
  OptState := unit;
  SchedState := unit;
  forward := fun _ => identity_flow;
  optimizer_update := fun _ _ _ s => s;
  scheduler_step := fun s _ => (s, false);
  trn_sampler := fun _ => [];
  val_sampler := fun _ => [[0%nat]]
|}.

Definition stopping : Collaborators := {|
  Params := unit;
  OptState := unit;
  SchedState := unit;
  forward := fun _ => identity_flow;
  optimizer_update := fun _ _ _ s => s;
  scheduler_step := fun s _ => (s, true);
  trn_sampler := fun _ => [[0%nat]];
  val_sampler := fun _ => [[0%nat]]
|}.

Section Updates.

Context {C : Collaborators}.

(** What the loop over the training batches does to the live parameters,
    the second snapshot and the optimizer state: one [optimizer_update]
    per batch, in the order of the batches. *)
Fixpoint updates (training_set : Dataset) (max_norm : num)
  (loader : list (list nat)) (u : Params * Params * OptState)
  : Params * Params * OptState :=
  match loader with
  | [] => u
  | index :: rest =>
      match Dataset_getitem training_set index with
      | Ok (x, w) =>
          updates training_set max_norm rest (optimizer_update max_norm x w u)
      | Err _ => u
      end
  end.

End Updates.

(** Collaborators whose parameters are a number that every optimizer step
    raises by one; the second snapshot is left as it is. *)
Definition counting : Collaborators := {|
  Params := Z;
  OptState := unit;
  SchedState := unit;
  forward := fun _ => identity_flow;
  optimizer_update := fun _ _ _ u => ((fst (fst u) + 1)%Z, snd (fst u), snd u);
  scheduler_step := fun s _ => (s, false);
  trn_sampler := fun _ => [[0%nat]; [0%nat]];
  val_sampler := fun _ => [[0%nat]]
|}.

(** ** load_models *)

(** What [load_models] reads and writes of [param]: [param['model_param']],
    [param['opt_param']['start_epoch']] and [param['readmode']]. *)
Record load_param : Type := mkLoadParam {
  model_param_of : model_param;
  opt_start_epoch : Z;
  readmode : Z
}.

(** The exceptions of [load_models]: [torch.load] on a file that does not
    exist, and [load_state_dict] on parameters that do not fit the network. *)
Inductive load_error : Type :=
| FileNotFoundError (filename : string)
| StateDictError (filename : string).

(** Three functions that [load_models] calls and that are not in the
    sources are taken as they come: [aux.create_model_filename(path, label,
    epoch, filetype)], the device that [optimize.model_to_cuda(model,
    device_type)] returns for a device type, and whether a state dict fits
    a network, that is whether [load_state_dict] accepts it. *)
Class Helpers {C : Collaborators} : Type := {
  create_model_filename : string -> string -> Z -> string -> string;
  model_to_cuda : string -> string;
  fits : Network -> Params -> bool
}.

Section Loading.

Context {C : Collaborators} {H : Helpers}.

(** A model as [load_models] returns it: the network, the parameters loaded
    into it, the device it was moved to, and whether it is in training
    mode. *)
Record Loaded : Type := mkLoaded {
  network : Network;
  state_dict : Params;
  device_of : string;
  training : bool
}.

(** [torch.load(filename)] on the files written so far: the last one
    written under that name. *)
Definition torch_load (files : list (string * Checkpoint)) (filename : string)
  : option Checkpoint :=
  option_map snd
    (find (fun f => String.eqb (fst f) filename) (rev files)).

(** The loop of [load_models], from the names that are left; its result is
    [param] as the loop leaves it, and the models and the device or the
    exception that ended it. *)
Fixpoint load_loop (files : list (string * Checkpoint)) (modeldir : string)
  (modelnames : list string) (prm : load_param) (models : list Loaded)
  (device : string) : load_param * (load_error + list Loaded * string) :=
  match modelnames with
  | [] => (prm, inr (models, device))
  | name :: rest =>
      let model := create_model (model_param_of prm) in
      let prm := mkLoadParam (model_param_of prm) 0 (readmode prm) in
      let filename :=
        create_model_filename modeldir name (readmode prm) ".pth" in
      match torch_load files filename with
      | None => (prm, inl (FileNotFoundError filename))
      | Some checkpoint =>
          if fits model (ck_model checkpoint)
          then
            let device := model_to_cuda device in
            load_loop files modeldir rest prm
                      (models ++ [mkLoaded model (ck_model checkpoint)
                                           device false])
                      device
          else (prm, inl (StateDictError filename))
      end
  end.

(** [load_models(param, modelnames, modeldir, device)] on the files
    [files]. *)
Definition load_models (files : list (string * Checkpoint))
  (prm : load_param) (modelnames : list string) (modeldir device : string)
  : load_param * (load_error + list Loaded * string) :=
  load_loop files modeldir modelnames prm [] device.

(** The file of a model name. *)
Definition model_file (prm : load_param) (modeldir name : string) : string :=
  create_model_filename modeldir name (readmode prm) ".pth".

(** A file that is there and whose parameters fit the network. *)
Definition loadable (files : list (string * Checkpoint)) (prm : load_param)
  (filename : string) : Prop :=
  exists checkpoint,
    torch_load files filename = Some checkpoint
    /\ fits (create_model (model_param_of prm)) (ck_model checkpoint) = true.

End Loading.

(** Helpers for examples: file names of the form
    [path/label_epoch] followed by the file type, a device that is the
    device type it is asked for, and parameters that always fit. *)
Definition plain_helpers {C : Collaborators} : Helpers := {|
  create_model_filename :=
    fun path label epoch filetype =>
      (path ++ "/" ++ label ++ "_" ++ str epoch ++ filetype)%string;
  model_to_cuda := fun device_type => device_type;
  fits := fun _ _ => true
|}.

(** A checkpoint of the example collaborators, and a directory that holds
    it under the name of epoch 0. *)
Definition still_checkpoint : Checkpoint (C := still) :=
  mkCheckpoint (C := still) tt (tt, tt) 0 [] [].

Definition still_files : list (string * Checkpoint (C := still)) :=
  [("checkpoint/dbnf_0.pth"%string, still_checkpoint)].
(** * Properties *)

Unset Implicit Arguments.

(** ** Arithmetic on [num] *)

Lemma sign_pos (r : R) : (0 < r)%R -> sign r = Gt.
Proof.
  intros H. unfold sign.
  destruct (Rlt_dec r 0); [lra|]. destruct (Rlt_dec 0 r); [reflexivity|lra].
Qed.

Lemma sign_neg (r : R) : (r < 0)%R -> sign r = Lt.
Proof.
  intros H. unfold sign. destruct (Rlt_dec r 0); [reflexivity|lra].
Qed.

Lemma sign_zero : sign 0 = Eq.
Proof.
  unfold sign. destruct (Rlt_dec 0 0); [lra|reflexivity].
Qed.

Lemma sign_Eq_inv (r : R) : sign r = Eq -> r = 0%R.
Proof.
  unfold sign. destruct (Rlt_dec r 0); [discriminate|].
  destruct (Rlt_dec 0 r); [discriminate|]. intros _. lra.
Qed.

Lemma sqrt_2PI_pos : (0 < sqrt (2 * PI))%R.
Proof.
  apply sqrt_lt_R0. pose proof PI_RGT_0. lra.
Qed.

(** The formula of [log_prob] at [loc = 0], [scale = 1] is the logarithm of
    the standard Gaussian density. *)
Lemma log_prob1_standard (v : num) :
  Normal.log_prob1 (Fin 0) (Fin 1) v = Normal.std_log_pdf v.
Proof.
  unfold Normal.log_prob1, sqr, sub. cbn [mul neg log].
  rewrite (sign_pos _ Rlt_0_1).
  destruct v as [t| | |]; cbn [add neg mul num_sign mul_sign inf_of div].
  - rewrite sign_pos by lra. cbn [add neg Normal.std_log_pdf]. f_equal.
    unfold Normal.std_pdf, Rdiv.
    rewrite ln_mult; [|apply exp_pos|apply Rinv_0_lt_compat, sqrt_2PI_pos].
    rewrite ln_exp, ln_Rinv by apply sqrt_2PI_pos.
    rewrite ln_1. field.
  - rewrite sign_pos by lra. reflexivity.
  - rewrite sign_pos by lra. reflexivity.
  - reflexivity.
Qed.

Lemma log_prob_row (y : list num) :
  zip_with (fun l sv => Normal.log_prob1 l (fst sv) (snd sv))
           (map (fun _ => Fin 0) y) (combine (map (fun _ => Fin 1) y) y)
  = map Normal.std_log_pdf y.
Proof.
  induction y as [|v y IH]; [reflexivity|].
  cbn [map combine zip_with fst snd]. now rewrite log_prob1_standard, IH.
Qed.

Lemma log_prob_standard (y : Tensor2) :
  Normal.log_prob (zeros_like y) (ones_like y) y = map (map Normal.std_log_pdf) y.
Proof.
  unfold Normal.log_prob, zeros_like, ones_like.
  induction y as [|r y IH]; [reflexivity|].
  cbn [map combine zip_with fst snd]. now rewrite log_prob_row, IH.
Qed.

(** ** compute_log_p_x *)

(** [compute_log_p_x] row by row. *)
Lemma compute_log_p_x_rows (model : Model) (x : Tensor2) :
  compute_log_p_x model x = map (log_p_row model) x.
Proof.
  unfold compute_log_p_x, call. rewrite log_prob_standard.
  induction x as [|row x IH]; [reflexivity|].
  cbn [map zip_with]. now rewrite IH.
Qed.

(** C1: for every model and every batch [x], [compute_log_p_x model x] holds
    one value per sample, and the value of a sample is the sum over the
    output dimensions of the logarithm of the standard Gaussian density at
    the transformed point [y], plus the log-determinant [log_diag], where
    [(y, log_diag)] is what the model returns for the sample. *)
Theorem compute_log_p_x_spec (model : Model) (x : Tensor2) :
  List.length (compute_log_p_x model x) = List.length x
  /\ forall (i : nat) (row y : list num) (log_diag : num),
      nth_error x i = Some row ->
      model row = (y, log_diag) ->
      nth_error (compute_log_p_x model x) i
      = Some (add (tsum (map Normal.std_log_pdf y)) log_diag).
Proof.
  rewrite compute_log_p_x_rows. split; [apply length_map|].
  intros i row y log_diag Hrow Hm.
  rewrite nth_error_map, Hrow. cbn [option_map]. unfold log_p_row.
  now rewrite Hm.
Qed.

(** A run of C1: the identity flow on a batch of two samples. *)
Lemma compute_log_p_x_spec_witness :
  nth_error (compute_log_p_x identity_flow [[Fin 0]; [Fin 1; Fin 2]]) 1
  = Some (add (tsum (map Normal.std_log_pdf [Fin 1; Fin 2])) (Fin 0)).
Proof.
  destruct (compute_log_p_x_spec identity_flow [[Fin 0]; [Fin 1; Fin 2]])
    as [_ H].
  apply (H 1%nat [Fin 1; Fin 2]); reflexivity.
Defined.

(** ** Lists *)

Lemma zip_with_length {A B D : Type} (f : A -> B -> D) (l : list A) (l' : list B) :
  List.length l = List.length l' -> List.length (zip_with f l l') = List.length l.
Proof.
  revert l'. induction l as [|a l IH]; intros [|b l'] H; try discriminate; cbn.
  - reflexivity.
  - f_equal. apply IH. now injection H.
Qed.

Lemma nth_error_zip_with {A B D : Type} (f : A -> B -> D) (l : list A)
  (l' : list B) (i : nat) (a : A) (b : B) :
  nth_error l i = Some a -> nth_error l' i = Some b ->
  nth_error (zip_with f l l') i = Some (f a b).
Proof.
  revert l l'. induction i as [|i IH]; intros [|x l] [|y l'] Ha Hb;
    try discriminate; cbn in *.
  - now injection Ha as ->; injection Hb as ->.
  - now apply IH.
Qed.

Lemma zip_with_map_r {A B B' D : Type} (f : A -> B' -> D) (g : B -> B')
  (l : list A) (l' : list B) :
  zip_with f l (map g l') = zip_with (fun a b => f a (g b)) l l'.
Proof.
  revert l'. induction l as [|a l IH]; intros [|b l']; cbn; try reflexivity.
  now rewrite IH.
Qed.

Lemma zip_with_zip_with_r {A B D E : Type} (f : A -> D -> E) (g : A -> B -> D)
  (l : list A) (l' : list B) :
  zip_with f l (zip_with g l l') = zip_with (fun a b => f a (g a b)) l l'.
Proof.
  revert l'. induction l as [|a l IH]; intros [|b l']; cbn; try reflexivity.
  now rewrite IH.
Qed.

Lemma map_zip_with {A B D E : Type} (h : D -> E) (f : A -> B -> D)
  (l : list A) (l' : list B) :
  map h (zip_with f l l') = zip_with (fun a b => h (f a b)) l l'.
Proof.
  revert l'. induction l as [|a l IH]; intros [|b l']; cbn; try reflexivity.
  now rewrite IH.
Qed.

(** ** predict *)

Lemma get_pdf_length (model : Model) (x : Tensor2) :
  List.length (get_pdf model x) = List.length x.
Proof.
  unfold get_pdf. rewrite compute_log_p_x_rows. now rewrite !length_map.
Qed.

Lemma get_pdf_nonneg (model : Model) (x : Tensor2) (i : nat) (s : R) :
  nth_error (get_pdf model x) i = Some (Fin s) -> (0 <= s)%R.
Proof.
  unfold get_pdf. rewrite nth_error_map.
  destruct (nth_error (compute_log_p_x model x) i) as [[r| | |]|];
    cbn; intros H; try discriminate; injection H as <-.
  - left. apply exp_pos.
  - lra.
Qed.

Lemma predict_ratio_entries (sgn_pdf bgk_pdf : Tensor1) (return_prob : bool)
  (EPS : num) :
  predict_ratio sgn_pdf bgk_pdf return_prob EPS
  = zip_with (ratio1 return_prob EPS) sgn_pdf bgk_pdf.
Proof.
  unfold predict_ratio, ratio1, np_clip_min. destruct return_prob.
  - now rewrite zip_with_map_r, zip_with_zip_with_r.
  - now rewrite zip_with_map_r.
Qed.

Lemma zero_nonfinite_entries (out : Tensor1) :
  zero_nonfinite out = map finite_or_zero out.
Proof.
  unfold zero_nonfinite, finite_or_zero. apply map_ext. now intros [| | |].
Qed.

Lemma predict_unfold (X0 : Tensor2) (m0 m1 : Model) (rest : list Model)
  (return_prob : option bool) (EPS : option num) :
  predict X0 (m0 :: m1 :: rest) return_prob EPS
  = Ok (zip_with (fun s b => finite_or_zero
                    (ratio1 (kwarg true return_prob) (kwarg EPS_default EPS) s b))
                 (get_pdf m1 X0) (get_pdf m0 X0)).
Proof.
  unfold predict. cbn [getitem nth_error rbind].
  now rewrite zero_nonfinite_entries, predict_ratio_entries, map_zip_with.
Qed.

Lemma np_maximum_Fin (x y : R) : np_maximum (Fin x) (Fin y) = Fin (Rmax x y).
Proof.
  unfold np_maximum, Rmax. cbn [ge isnan]. rewrite orb_false_r.
  destruct (Rle_dec y x), (Rle_dec x y); try reflexivity; f_equal; lra.
Qed.

Lemma div_Fin_pos (x y : R) : (0 < y)%R -> div (Fin x) (Fin y) = Fin (x / y).
Proof.
  intros H. cbn [div]. now rewrite (sign_pos _ H).
Qed.

(** C3, as amended: for every input matrix and every pair of models
    (background first, signal second), [predict] returns for each row the
    value [pdf_S / clip(pdf_S + pdf_B, EPS, inf)] if [return_prob], and
    [pdf_S / clip(pdf_B, EPS, inf)] otherwise, whenever that value is
    finite, and 0 whenever it is not; [pdf_S] and [pdf_B] are the values of
    [get_pdf], [return_prob] defaults to true and [EPS] to 1e-9. *)
Theorem predict_spec (X0 : Tensor2) (m0 m1 : Model) (rest : list Model)
  (return_prob : option bool) (EPS : option num) :
  predict X0 (m0 :: m1 :: rest) return_prob EPS
  = Ok (zip_with (fun pdf_S pdf_B =>
                    let r := ratio1 (kwarg true return_prob)
                                    (kwarg EPS_default EPS) pdf_S pdf_B in
                    if isfinite r then r else Fin 0)
                 (get_pdf m1 X0) (get_pdf m0 X0))
  /\ kwarg true (@None bool) = true
  /\ kwarg EPS_default None = Fin (1 / 10 ^ 9).
Proof.
  split; [apply predict_unfold | split; reflexivity].
Qed.

Lemma std_pdf_pos (t : R) : (0 < Normal.std_pdf t)%R.
Proof.
  unfold Normal.std_pdf. apply Rdiv_lt_0_compat; [apply exp_pos|apply sqrt_2PI_pos].
Qed.

(** The identity flow has the standard Gaussian density. *)
Lemma get_pdf_identity_flow (t : R) :
  get_pdf identity_flow [[Fin t]] = [Fin (Normal.std_pdf t)].
Proof.
  unfold get_pdf. rewrite compute_log_p_x_rows.
  cbn. do 2 f_equal.
  replace (0 + ln (Normal.std_pdf t) + 0)%R with (ln (Normal.std_pdf t)) by lra.
  apply exp_ln, std_pdf_pos.
Qed.

Lemma get_pdf_overflowing_flow (t : R) :
  get_pdf overflowing_flow [[Fin t]] = [PInf].
Proof.
  unfold get_pdf. now rewrite compute_log_p_x_rows.
Qed.

Lemma EPS_default_pos : (0 < 1 / 10 ^ 9)%R.
Proof. lra. Qed.

(** C3, counterexample: the background model is the identity flow and the
    density of the signal model has overflowed at the one row of the input.
    With [return_prob = False] the ratio [pdf_S / clip(pdf_B, EPS, inf)] is
    +inf there, and [predict] returns 0. *)
Lemma predict_ratio_overflow :
  predict [[Fin 0]] [identity_flow; overflowing_flow] (Some false) None
  = Ok [Fin 0]
  /\ zip_with (ratio1 false EPS_default)
              (get_pdf overflowing_flow [[Fin 0]])
              (get_pdf identity_flow [[Fin 0]]) = [PInf]
  /\ predict [[Fin 0]] [identity_flow; overflowing_flow] (Some false) None
     <> Ok (zip_with (ratio1 false EPS_default)
                     (get_pdf overflowing_flow [[Fin 0]])
                     (get_pdf identity_flow [[Fin 0]])).
Proof.
  assert (E : ratio1 false EPS_default PInf (Fin (Normal.std_pdf 0)) = PInf).
  { unfold ratio1, EPS_default. rewrite np_maximum_Fin. cbn [div num_sign mul_sign].
    rewrite sign_pos; [reflexivity|].
    eapply Rlt_le_trans; [apply (std_pdf_pos 0)|apply Rmax_l]. }
  rewrite predict_unfold, get_pdf_overflowing_flow, get_pdf_identity_flow.
  cbn [zip_with kwarg]. rewrite E. cbn [finite_or_zero isfinite].
  repeat split. discriminate.
Qed.



(** C7, as amended: with [return_prob = True] and a positive [EPS], a row
    at which both densities are finite gets a value in the closed interval
    from 0 to 1; and when the two models are the same and twice the density
    at the row is at least [EPS], that value is 1/2. *)
Theorem predict_prob_spec (X0 : Tensor2) (m0 m1 : Model) (rest : list Model)
  (return_prob : option bool) (EPS : option num) (e : R) (i : nat) (s b : R) :
  kwarg true return_prob = true ->
  kwarg EPS_default EPS = Fin e ->
  (0 < e)%R ->
  nth_error (get_pdf m1 X0) i = Some (Fin s) ->
  nth_error (get_pdf m0 X0) i = Some (Fin b) ->
  exists out v,
    predict X0 (m0 :: m1 :: rest) return_prob EPS = Ok out
    /\ nth_error out i = Some (Fin v)
    /\ (0 <= v <= 1)%R
    /\ (m0 = m1 -> (e <= 2 * s)%R -> v = (1 / 2)%R).
Proof.
  intros Hrp HEPS He Hs Hb.
  pose proof (get_pdf_nonneg _ _ _ _ Hs) as Hs0.
  pose proof (get_pdf_nonneg _ _ _ _ Hb) as Hb0.
  pose proof (Rmax_l (s + b) e) as Hl. pose proof (Rmax_r (s + b) e) as Hr.
  set (d := Rmax (s + b) e) in *.
  assert (Hd : (0 < d)%R) by lra.
  rewrite predict_unfold, Hrp, HEPS.
  eexists. exists (s / d)%R. split; [reflexivity|]. split; [|split].
  - rewrite (nth_error_zip_with _ _ _ _ _ _ Hs Hb). unfold ratio1. cbn [add].
    rewrite np_maximum_Fin. fold d. now rewrite (div_Fin_pos _ _ Hd).
  - pose proof (Rinv_0_lt_compat _ Hd) as Hi.
    assert (Hone : (d * / d = 1)%R) by (apply Rinv_r; lra).
    unfold Rdiv. split; nra.
  - intros -> Hes. assert (s = b) by congruence. subst b.
    unfold d. rewrite Rmax_left by lra. field. lra.
Qed.

(** At the origin the standard Gaussian density is at least 1/3. *)
Lemma std_pdf_0 : (1 / 3 <= Normal.std_pdf 0)%R.
Proof.
  unfold Normal.std_pdf.
  replace (- (0 * 0) / 2)%R with 0%R by lra. rewrite exp_0.
  assert (H : (sqrt (2 * PI) <= 3)%R).
  { rewrite <- (sqrt_square 3) by lra.
    apply sqrt_le_1_alt. pose proof PI_4. lra. }
  pose proof sqrt_2PI_pos as Hp.
  unfold Rdiv. rewrite !Rmult_1_l. apply Rinv_le_contravar; lra.
Qed.

(** A run of C7: the same standard Gaussian for signal and background, at
    the origin. *)
Lemma predict_prob_spec_witness :
  exists out,
    predict [[Fin 0]] [identity_flow; identity_flow] None None = Ok out
    /\ nth_error out 0 = Some (Fin (1 / 2)).
Proof.
  destruct (predict_prob_spec [[Fin 0]] identity_flow identity_flow [] None None
              (1 / 10 ^ 9) 0 (Normal.std_pdf 0) (Normal.std_pdf 0)
              eq_refl eq_refl EPS_default_pos
              ltac:(now rewrite get_pdf_identity_flow)
              ltac:(now rewrite get_pdf_identity_flow))
    as (out & v & Hrun & Hv & _ & Hhalf).
  exists out. split; [exact Hrun|].
  rewrite Hv, (Hhalf eq_refl); [reflexivity|].
  pose proof std_pdf_0. lra.
Defined.

Lemma exp_nat_mul (n : nat) (x : R) :
  Rtrigo_def.exp (INR n * x) = (Rtrigo_def.exp x ^ n)%R.
Proof.
  induction n as [|n IH].
  - cbn. rewrite Rmult_0_l. apply exp_0.
  - rewrite S_INR, Rmult_plus_distr_r, Rmult_1_l, exp_plus, IH. cbn. ring.
Qed.

(** Ten standard deviations out, the standard Gaussian density is below
    3^-25, about 1.2e-12. *)
Lemma std_pdf_10 : (Normal.std_pdf 10 <= / 3 ^ 25)%R.
Proof.
  unfold Normal.std_pdf.
  replace (- (10 * 10) / 2)%R with (- (INR 25 * 2))%R
    by (rewrite (INR_IZR_INZ 25); cbn; lra).
  rewrite exp_Ropp, exp_nat_mul.
  assert (H3 : (3 ^ 25 <= Rtrigo_def.exp 2 ^ 25)%R).
  { apply pow_incr. pose proof (exp_ineq1_le 2). lra. }
  assert (Hp : (0 < 3 ^ 25)%R) by (apply pow_lt; lra).
  assert (Hs : (1 <= sqrt (2 * PI))%R).
  { rewrite <- sqrt_1 at 1. apply sqrt_le_1; pose proof PI2_1; lra. }
  assert (Hi : (/ Rtrigo_def.exp 2 ^ 25 <= / 3 ^ 25)%R)
    by (apply Rinv_le_contravar; lra).
  assert (Hi0 : (0 < / Rtrigo_def.exp 2 ^ 25)%R)
    by (apply Rinv_0_lt_compat; lra).
  apply Rle_trans with (/ Rtrigo_def.exp 2 ^ 25)%R; [|exact Hi].
  unfold Rdiv. rewrite <- (Rmult_1_r (/ Rtrigo_def.exp 2 ^ 25)) at 2.
  apply Rmult_le_compat_l; [lra|].
  rewrite <- Rinv_1. apply Rinv_le_contravar; lra.
Qed.

(** C7, counterexample: signal and background are the same standard
    Gaussian and the row lies ten standard deviations out.  The density
    there is positive and finite, the sum of the two densities is below
    [EPS], and the value returned is below 0.01, not 1/2. *)
Lemma predict_identical_models_tail :
  exists v,
    predict [[Fin 10]] [identity_flow; identity_flow] (Some true) None
    = Ok [Fin v]
    /\ (v < 1 / 100)%R.
Proof.
  pose proof std_pdf_10 as Hp. pose proof (std_pdf_pos 10) as Hp0.
  set (p := Normal.std_pdf 10) in *.
  assert (H25 : (/ 3 ^ 25 < 1 / (4 * 10 ^ 11))%R).
  { unfold Rdiv. rewrite Rmult_1_l. apply Rinv_lt_contravar; lra. }
  exists (p / (1 / 10 ^ 9))%R. split.
  - rewrite predict_unfold, get_pdf_identity_flow. fold p.
    cbn [zip_with kwarg]. unfold ratio1, EPS_default. cbn [add].
    rewrite np_maximum_Fin, Rmax_right by lra.
    now rewrite (div_Fin_pos _ _ EPS_default_pos).
  - lra.
Qed.

(** ** lossfunc *)

Lemma fold_add_Fin (ws : list R) (a : R) :
  fold_left add (map Fin ws) (Fin a) = Fin (a + Rsum ws).
Proof.
  revert a. induction ws as [|w ws IH]; intros a; cbn.
  - f_equal. lra.
  - rewrite IH. f_equal. lra.
Qed.

Lemma tsum_Fin (ws : list R) : tsum (map Fin ws) = Fin (Rsum ws).
Proof.
  unfold tsum. rewrite fold_add_Fin. f_equal. lra.
Qed.

Lemma mul_comm (a b : num) : mul a b = mul b a.
Proof.
  destruct a as [x| | |], b as [y| | |]; cbn; try reflexivity;
    try (f_equal; apply Rmult_comm);
    match goal with |- context [sign ?r] => now destruct (sign r) end.
Qed.

Lemma div_Fin_nonzero (x y : R) : y <> 0%R -> div (Fin x) (Fin y) = Fin (x / y).
Proof.
  intros H. cbn [div]. destruct (sign y) eqn:E; try reflexivity.
  now apply sign_Eq_inv in E.
Qed.

Lemma Rsum_scale (ws : list R) (c : R) :
  Rsum (map (fun w => (w / c)%R) ws) = (Rsum ws / c)%R.
Proof.
  induction ws as [|w ws IH]; cbn.
  - unfold Rdiv. now rewrite Rmult_0_l.
  - rewrite IH. unfold Rdiv. ring.
Qed.

Lemma broadcast_same_length (f : num -> num -> num) (a b : Tensor1) :
  List.length a = List.length b -> broadcast f a b = Ok (zip_with f a b).
Proof.
  intros H. unfold broadcast. now rewrite H, Nat.eqb_refl.
Qed.

Lemma zip_with_comm {A B D : Type} (f : A -> B -> D) (l : list A) (l' : list B) :
  zip_with f l l' = zip_with (fun b a => f a b) l' l.
Proof.
  revert l'. induction l as [|a l IH]; intros [|b l']; cbn; try reflexivity.
  now rewrite IH.
Qed.

Lemma zip_with_ext {A B D : Type} (f g : A -> B -> D) (l : list A) (l' : list B) :
  (forall a b, f a b = g a b) -> zip_with f l l' = zip_with g l l'.
Proof.
  intros H. revert l'. induction l as [|a l IH]; intros [|b l']; cbn;
    try reflexivity.
  now rewrite H, IH.
Qed.

Lemma compute_log_p_x_length (model : Model) (x : Tensor2) :
  List.length (compute_log_p_x model x) = List.length x.
Proof.
  rewrite compute_log_p_x_rows. apply length_map.
Qed.

(** [lossfunc] on a batch with as many weights as samples. *)
Lemma lossfunc_same_length (model : Model) (x : Tensor2) (weights : Tensor1) :
  List.length weights = List.length x ->
  lossfunc model x weights
  = Ok (neg (tsum (zip_with (fun w lp => mul (div w (tsum weights)) lp)
                            weights (compute_log_p_x model x)))).
Proof.
  intros H. unfold lossfunc.
  rewrite broadcast_same_length
    by now rewrite compute_log_p_x_length, length_map.
  cbn [rbind]. do 3 f_equal.
  rewrite zip_with_map_r, zip_with_comm. apply zip_with_ext.
  intros a b. apply mul_comm.
Qed.

(** C5: on a batch with one weight per sample, the loss is the negative of
    the sum over the batch of [w_i / sum_j w_j] times the log-likelihood
    [compute_log_p_x(model, x_i)]; and the weights it is computed on,
    [w_i / sum_j w_j], sum to 1 whenever the weights are finite and their
    sum is not zero. *)
Theorem lossfunc_spec (model : Model) (x : Tensor2) (weights : Tensor1) :
  List.length weights = List.length x ->
  lossfunc model x weights
  = Ok (neg (tsum (zip_with (fun w lp => mul (div w (tsum weights)) lp)
                            weights (compute_log_p_x model x))))
  /\ forall ws : list R,
      weights = map Fin ws -> Rsum ws <> 0%R ->
      tsum (map (fun w => div w (tsum weights)) weights) = Fin 1.
Proof.
  intros H. split; [now apply lossfunc_same_length|].
  intros ws -> Hs. rewrite tsum_Fin, map_map.
  rewrite (map_ext _ (fun w => Fin (w / Rsum ws)%R)) by
    (intros w; now apply div_Fin_nonzero).
  rewrite <- (map_map (fun w => (w / Rsum ws)%R) Fin), tsum_Fin, Rsum_scale.
  f_equal. now field.
Qed.

(** A run of C5: two samples at the origin with the weights 1 and 3. *)
Lemma lossfunc_spec_witness :
  lossfunc identity_flow [[Fin 0]; [Fin 0]] [Fin 1; Fin 3]
  = Ok (neg (tsum (zip_with (fun w lp => mul (div w (tsum [Fin 1; Fin 3])) lp)
                            [Fin 1; Fin 3]
                            (compute_log_p_x identity_flow [[Fin 0]; [Fin 0]]))))
  /\ tsum (map (fun w => div w (tsum [Fin 1; Fin 3])) [Fin 1; Fin 3]) = Fin 1.
Proof.
  destruct (lossfunc_spec identity_flow [[Fin 0]; [Fin 0]] [Fin 1; Fin 3]
              eq_refl) as [H1 H2].
  split; [exact H1|].
  apply (H2 [1; 3]%R); [reflexivity|]. cbn [Rsum]. lra.
Defined.

(** ** create_model *)

(** What one turn of the loop over the flows appends. *)
Lemma add_flow_app (mp : model_param) (acc : list Flow) (f : Z) :
  add_flow mp acc f = acc ++ add_flow mp [] f.
Proof.
  unfold add_flow. destruct (f <? flows mp - 1)%Z; cbn [app].
  - now rewrite <- app_assoc.
  - reflexivity.
Qed.

Lemma fold_add_flow (mp : model_param) (l : list Z) (acc : list Flow) :
  fold_left (add_flow mp) l acc = acc ++ flat_map (add_flow mp []) l.
Proof.
  revert acc. induction l as [|f l IH]; intros acc; cbn [fold_left flat_map].
  - now rewrite app_nil_r.
  - now rewrite IH, (add_flow_app mp acc f), app_assoc.
Qed.

Lemma add_flow_interior (mp : model_param) (f : Z) :
  (f < flows mp - 1)%Z ->
  add_flow mp [] f
  = [BNAF (block_body mp) (residual mp); Permutation (n_dims mp) (perm mp)].
Proof.
  intros H. unfold add_flow, block.
  apply Z.ltb_lt in H. now rewrite H.
Qed.

Lemma add_flow_last (mp : model_param) (f : Z) :
  (flows mp - 1 <= f)%Z -> add_flow mp [] f = [BNAF (block_body mp) None].
Proof.
  intros H. unfold add_flow, block.
  apply Z.ltb_ge in H. now rewrite H.
Qed.

Lemma flat_map_interior (mp : model_param) (m s : nat) :
  (Z.of_nat (s + m) <= flows mp - 1)%Z ->
  flat_map (add_flow mp []) (map (fun i => (0 + Z.of_nat i)%Z) (seq s m))
  = interior mp m.
Proof.
  revert s. induction m as [|m IH]; intros s H; [reflexivity|].
  cbn [seq map flat_map interior].
  rewrite add_flow_interior by lia.
  cbn [app]. do 2 f_equal. apply IH. lia.
Qed.

Lemma create_model_flows (mp : model_param) :
  (1 <= flows mp)%Z -> flows_of (create_model mp) = separated_blocks mp.
Proof.
  intros H. unfold create_model, separated_blocks, range. cbn [flows_of].
  rewrite fold_add_flow. cbn [app].
  replace (Z.to_nat (flows mp - 0)) with (S (Z.to_nat (flows mp - 1))) by lia.
  rewrite seq_S, map_app, flat_map_app. cbn [map flat_map Nat.add].
  rewrite flat_map_interior, add_flow_last, app_nil_r by lia.
  reflexivity.
Qed.

Lemma interior_length (mp : model_param) (n : nat) :
  List.length (interior mp n) = (2 * n)%nat.
Proof.
  induction n as [|n IH]; cbn [interior List.length]; lia.
Qed.

Lemma interior_blocks (mp : model_param) (n : nat) (tl : list Flow) :
  List.length (filter is_BNAF (interior mp n ++ tl))
  = (n + List.length (filter is_BNAF tl))%nat.
Proof.
  induction n as [|n IH]; [reflexivity|].
  cbn [interior app filter is_BNAF List.length]. now rewrite IH.
Qed.

Lemma interior_permutations (mp : model_param) (n : nat) (tl : list Flow) :
  List.length (filter is_Permutation (interior mp n ++ tl))
  = (n + List.length (filter is_Permutation tl))%nat.
Proof.
  induction n as [|n IH]; [reflexivity|].
  cbn [interior app filter is_Permutation List.length]. now rewrite IH.
Qed.

Lemma interior_nth (mp : model_param) (n k : nat) (tl : list Flow) :
  (k < n)%nat ->
  nth_error (interior mp n ++ tl) (2 * k)
  = Some (BNAF (block_body mp) (residual mp))
  /\ nth_error (interior mp n ++ tl) (2 * k + 1)
     = Some (Permutation (n_dims mp) (perm mp)).
Proof.
  revert k. induction n as [|n IH]; intros k H; [lia|].
  destruct k as [|k].
  - split; reflexivity.
  - replace (2 * S k)%nat with (S (S (2 * k))) by lia.
    replace (S (S (2 * k)) + 1)%nat with (S (S (2 * k + 1))) by lia.
    cbn [interior app nth_error]. apply IH. lia.
Qed.

(** C8: for [flows >= 1], the [Sequential] that [create_model] builds
    holds exactly [flows] flow blocks and exactly [flows - 1] permutation
    layers; the blocks stand at the even positions and a permutation
    stands between each two consecutive blocks; every block but the last
    gets the residual of [param], the last gets none. *)
Theorem create_model_spec (mp : model_param) :
  (1 <= flows mp)%Z ->
  let fl := flows_of (create_model mp) in
  let n := Z.to_nat (flows mp) in
  List.length (filter is_BNAF fl) = n
  /\ List.length (filter is_Permutation fl) = (n - 1)%nat
  /\ List.length fl = (2 * n - 1)%nat
  /\ (forall k, (k < n - 1)%nat ->
        nth_error fl (2 * k) = Some (BNAF (block_body mp) (residual mp))
        /\ nth_error fl (2 * k + 1)
           = Some (Permutation (n_dims mp) (perm mp)))
  /\ nth_error fl (2 * (n - 1)) = Some (BNAF (block_body mp) None).
Proof.
  intros H fl n. subst fl. rewrite (create_model_flows mp H).
  unfold separated_blocks.
  replace (Z.to_nat (flows mp - 1)) with (n - 1)%nat by (subst n; lia).
  repeat split.
  - rewrite interior_blocks. cbn. subst n. lia.
  - rewrite interior_permutations. cbn. lia.
  - rewrite length_app, interior_length. cbn. subst n. lia.
  - now apply interior_nth.
  - now apply interior_nth.
  - rewrite nth_error_app2; rewrite interior_length; [|lia].
    now rewrite Nat.sub_diag.
Qed.

(** A run of C8: three flows. *)
Lemma create_model_spec_witness :
  flows_of (create_model example_param)
  = [BNAF (block_body example_param) (Some "gated"%string);
     Permutation 2 "rand"%string;
     BNAF (block_body example_param) (Some "gated"%string);
     Permutation 2 "rand"%string;
     BNAF (block_body example_param) None]
  /\ List.length (filter is_BNAF (flows_of (create_model example_param))) = 3%nat
  /\ List.length (filter is_Permutation (flows_of (create_model example_param)))
     = 2%nat.
Proof.
  destruct (create_model_spec example_param ltac:(cbn; lia)) as (H1 & H2 & _).
  split; [reflexivity|]. split; [exact H1 | exact H2].
Defined.

(** ** The training loop *)

(** Equal lists of calls, up to the bracketing of the appends. *)
Ltac list_eq :=
  repeat first [rewrite <- app_assoc | progress cbn [app]]; reflexivity.

Section TrainingFacts.

Context {C : Collaborators}.

Local Open Scope train_scope.

Lemma bind_Ok {A B : Type} (m : M A) (k : A -> M B) (s s' : St) (a : A) :
  m s = (s', Ok a) -> bind m k s = k a s'.
Proof.
  intros H. unfold bind. now rewrite H.
Qed.

Lemma bind_Err {A B : Type} (m : M A) (k : A -> M B) (s s' : St) (e : exn) :
  m s = (s', Err e) -> bind m k s = (s', Err e).
Proof.
  intros H. unfold bind. now rewrite H.
Qed.

Lemma gather_in_range {A : Type} (t : list A) (index : list nat) :
  Forall (fun i => (i < List.length t)%nat) index ->
  exists r, gather t index = Ok r /\ List.length r = List.length index.
Proof.
  induction 1 as [|i index Hi _ (r & Hr & Hl)].
  - now exists [].
  - cbn [gather]. unfold getitem.
    destruct (nth_error t i) as [a|] eqn:E.
    + exists (a :: r). rewrite Hr. cbn. now rewrite Hl.
    + apply nth_error_None in E. lia.
Qed.

Lemma Dataset_getitem_in_range (d : Dataset) (index : list nat) :
  List.length (W d) = List.length (X d) ->
  Forall (fun i => (i < List.length (X d))%nat) index ->
  exists x w,
    Dataset_getitem d index = Ok (x, w) /\ List.length w = List.length x.
Proof.
  intros HW Hi. unfold Dataset_getitem.
  destruct (gather_in_range (X d) index Hi) as (x & Hx & Hlx).
  rewrite <- HW in Hi.
  destruct (gather_in_range (W d) index Hi) as (w & Hw & Hlw).
  exists x, w. rewrite Hx, Hw. cbn. split; [reflexivity|lia].
Qed.

Lemma loss_of_same_length (x : Tensor2) (w : Tensor1) (s : St) :
  List.length w = List.length x ->
  exists loss, loss_of x w s = (s, Ok loss).
Proof.
  intros H. unfold loss_of. rewrite lossfunc_same_length by exact H.
  now eexists.
Qed.

Lemma training_batches_ok (d : Dataset) (max_norm : num)
  (loader : list (list nat)) :
  List.length (W d) = List.length (X d) ->
  in_range (X d) loader ->
  forall (acc : list num) (s : St),
  exists s' losses,
    training_batches d max_norm loader acc s = (s', Ok (acc ++ losses))
    /\ List.length losses = List.length loader
    /\ trace s' = trace s ++ repeat OptimizerStep (List.length loader)
    /\ locals_kept s s'.
Proof.
  intros HW. induction 1 as [|index loader Hi _ IH]; intros acc s.
  - exists s, []. cbn. rewrite !app_nil_r. now repeat split.
  - destruct (Dataset_getitem_in_range d index HW Hi) as (x & w & Hg & Hl).
    destruct (loss_of_same_length x w s Hl) as (loss & Hloss).
    cbn [training_batches]. unfold lift at 1.
    rewrite (bind_Ok _ _ s s (x, w)) by now rewrite Hg.
    cbn [fst snd]. rewrite (bind_Ok _ _ _ _ _ Hloss).
    unfold optimizer_step, emit, modify. unfold bind at 1 2.
    destruct (optimizer_update max_norm x w (live s, shadow s, opt s))
      as [[l sh] o].
    cbn [live shadow opt sched trn_losses val_losses validation_loss saved trace].
    match goal with |- context [training_batches _ _ _ _ ?s1] =>
      destruct (IH (acc ++ [loss]) s1) as (s' & losses & Hrun & Hlen & Htr & Hk)
    end.
    exists s', (loss :: losses). rewrite Hrun, <- app_assoc. cbn [app].
    split; [reflexivity|]. split; [cbn; now rewrite Hlen|].
    split; [|exact Hk].
    rewrite Htr. cbn [trace repeat List.length]. now rewrite <- app_assoc.
Qed.

Lemma validation_batches_ok (d : Dataset) (loader : list (list nat)) :
  List.length (W d) = List.length (X d) ->
  in_range (X d) loader ->
  forall (acc : list num) (s : St),
  exists losses,
    validation_batches d loader acc s = (s, Ok (acc ++ losses))
    /\ List.length losses = List.length loader.
Proof.
  intros HW. induction 1 as [|index loader Hi _ IH]; intros acc s.
  - exists []. cbn. now rewrite app_nil_r.
  - destruct (Dataset_getitem_in_range d index HW Hi) as (x & w & Hg & Hl).
    destruct (loss_of_same_length x w s Hl) as (loss & Hloss).
    cbn [validation_batches]. unfold lift at 1.
    rewrite (bind_Ok _ _ s s (x, w)) by now rewrite Hg.
    cbn [fst snd]. rewrite (bind_Ok _ _ _ _ _ Hloss).
    destruct (IH (acc ++ [loss]) s) as (losses & Hrun & Hlen).
    exists (loss :: losses). rewrite Hrun, <- app_assoc. cbn [app].
    split; [reflexivity|]. cbn. now rewrite Hlen.
Qed.

Lemma stack_mean_nonempty (losses : list num) :
  losses <> [] -> exists v, stack_mean losses = Ok v.
Proof.
  destruct losses as [|l losses]; [congruence|]. intros _. now eexists.
Qed.

Lemma length_nonempty {A B : Type} (l : list A) (l' : list B) :
  List.length l = List.length l' -> l' <> [] -> l <> [].
Proof.
  destruct l, l'; cbn; congruence.
Qed.

Lemma training_phase_ok (p : param) (d : Dataset) (epoch : Z) (s : St) :
  List.length (W d) = List.length (X d) ->
  in_range (X d) (trn_sampler epoch) ->
  trn_sampler epoch <> [] ->
  exists s' train_loss,
    training_phase p d epoch s = (s', Ok train_loss)
    /\ trace s' = trace s ++ ModelTrain epoch
                    :: repeat OptimizerStep (List.length (trn_sampler epoch))
                    ++ [OptimizerSwap]
    /\ locals_kept s s'.
Proof.
  intros HW Hr Hne. unfold training_phase.
  unfold emit at 1, modify at 1. unfold bind at 1.
  match goal with |- exists _ _, bind _ _ ?s1 = _ /\ _ =>
    destruct (training_batches_ok d (clip_norm p) _ HW Hr [] s1)
      as (s2 & losses & Hrun & Hlen & Htr & Hk)
  end.
  rewrite (bind_Ok _ _ _ _ _ Hrun). cbn [app].
  destruct (stack_mean_nonempty losses (length_nonempty _ _ Hlen Hne))
    as (v & Hv).
  unfold lift. rewrite (bind_Ok _ _ s2 s2 v) by now rewrite Hv.
  unfold optimizer_swap, emit, modify, ret, bind.
  eexists. exists v. split; [reflexivity|].
  cbn [trace] in *. destruct Hk as (K1 & K2 & K3 & K4 & K5). cbn in K1, K2, K3, K4, K5.
  split.
  - rewrite Htr, <- !app_assoc. reflexivity.
  - now repeat split.
Qed.

Lemma validation_phase_ok (d : Dataset) (epoch : Z) (s : St) :
  List.length (W d) = List.length (X d) ->
  in_range (X d) (val_sampler epoch) ->
  val_sampler epoch <> [] ->
  exists s' vl,
    validation_phase d epoch s = (s', Ok tt)
    /\ trace s' = trace s ++ [ModelEval; OptimizerSwap]
    /\ validation_loss s' = Some vl
    /\ sched s' = sched s
    /\ trn_losses s' = trn_losses s
    /\ val_losses s' = val_losses s
    /\ saved s' = saved s.
Proof.
  intros HW Hr Hne. unfold validation_phase.
  unfold emit at 1, modify at 1. unfold bind at 1.
  match goal with |- exists _ _, bind _ _ ?s1 = _ /\ _ =>
    destruct (validation_batches_ok d _ HW Hr [] s1) as (losses & Hrun & Hlen)
  end.
  rewrite (bind_Ok _ _ _ _ _ Hrun). cbn [app].
  destruct (stack_mean_nonempty losses (length_nonempty _ _ Hlen Hne))
    as (v & Hv).
  unfold lift. rewrite (bind_Ok _ _ _ _ v) by now rewrite Hv.
  unfold optimizer_swap, emit, modify, ret, bind.
  eexists. exists v. split; [reflexivity|]. cbn.
  rewrite <- !app_assoc. now repeat split.
Qed.

Lemma checkpoint_phase_bound (modeldir save_name : string) (epoch : Z)
  (train_loss : num) (s : St) (vl : num) :
  validation_loss s = Some vl ->
  exists s' stop,
    checkpoint_phase modeldir save_name epoch train_loss s = (s', Ok stop)
    /\ stop = snd (scheduler_step (sched s, opt s) vl)
    /\ trace s' = trace s ++ [SchedulerStep;
                              Save (checkpoint_name modeldir save_name epoch)]
    /\ trn_losses s' = trn_losses s ++ [train_loss]
    /\ val_losses s' = val_losses s ++ [vl]
    /\ validation_loss s' = Some vl
    /\ saved s' = saved s ++ [(checkpoint_name modeldir save_name epoch,
                               mkCheckpoint (live s') (opt s', shadow s') epoch
                                            (trn_losses s') (val_losses s'))].
Proof.
  intros Hv. unfold checkpoint_phase, append_trn_loss, append_val_loss,
    read_validation_loss, scheduler_call, save_torch_model, emit, modify, ret, bind.
  cbn. rewrite Hv. cbn.
  destruct (scheduler_step (sched s, opt s) vl) as [[sc o] stop].
  eexists. exists stop. split; [reflexivity|]. cbn.
  rewrite <- !app_assoc. now repeat split.
Qed.

Lemma checkpoint_phase_unbound (modeldir save_name : string) (epoch : Z)
  (train_loss : num) (s : St) :
  validation_loss s = None ->
  exists s',
    checkpoint_phase modeldir save_name epoch train_loss s
    = (s', Err (UnboundLocalError "validation_loss"))
    /\ trace s' = trace s
    /\ trn_losses s' = trn_losses s ++ [train_loss]
    /\ val_losses s' = val_losses s
    /\ saved s' = saved s.
Proof.
  intros Hv. unfold checkpoint_phase, append_trn_loss, append_val_loss,
    read_validation_loss, modify, bind.
  cbn. rewrite Hv. eexists. split; [reflexivity|]. now repeat split.
Qed.

Lemma validates_nonzero (epoch evalmode : Z) :
  evalmode <> 0%Z -> validates epoch evalmode = Ok (validated epoch evalmode).
Proof.
  intros H. unfold validates, validated.
  destruct (Z.eqb_spec epoch 0); [reflexivity|].
  destruct (Z.eqb_spec evalmode 0); [contradiction|reflexivity].
Qed.

(** An epoch runs to its end when its loaders are in order and a
    validation loss is bound at its checkpoint phase. *)
Lemma epoch_body_ok (p : param) (ts vs : Dataset) (modeldir save_name : string)
  (epoch : Z) (s : St) :
  List.length (W ts) = List.length (X ts) ->
  List.length (W vs) = List.length (X vs) ->
  loaders_ok (X ts) (X vs) ->
  evalmode p <> 0%Z ->
  (validated epoch (evalmode p) = false -> validation_loss s <> None) ->
  exists s' stop,
    epoch_body p ts vs modeldir save_name epoch s = (s', Ok stop)
    /\ epoch_step p modeldir save_name epoch s s'
    /\ exists sc vl, stop = snd (scheduler_step sc vl).
Proof.
  intros HWt HWv Hl Hem Hbound.
  destruct (Hl epoch) as (Hne & Hr & Hvne & Hvr).
  destruct (training_phase_ok p ts epoch s HWt Hr Hne)
    as (s1 & tl & Hrun1 & Htr1 & K1 & K2 & K3 & K4 & K5).
  unfold epoch_body. rewrite (bind_Ok _ _ _ _ _ Hrun1).
  unfold lift at 1. rewrite (bind_Ok _ _ s1 s1 (validated epoch (evalmode p)))
    by now rewrite validates_nonzero.
  unfold epoch_step. cbn zeta.
  destruct (validated epoch (evalmode p)) eqn:Ev.
  - destruct (validation_phase_ok vs epoch s1 HWv Hvr Hvne)
      as (s2 & vl & Hrun2 & Htr2 & Hv2 & L1 & L2 & L3 & L4).
    rewrite (bind_Ok _ _ _ _ _ Hrun2).
    destruct (checkpoint_phase_bound modeldir save_name epoch tl s2 vl Hv2)
      as (s3 & stop & Hrun3 & Hstop & Htr3 & M1 & M2 & M3 & M4).
    exists s3, stop. split; [exact Hrun3|]. split; [|now eauto].
    split; [|split; [|split]].
    + rewrite Htr3, Htr2, Htr1. unfold epoch_calls. list_eq.
    + exists tl. now rewrite M1, L2, K2.
    + exists vl. rewrite M2, L3, K3. repeat split; [exact M3|discriminate].
    + now rewrite M4, L4, K5.
  - destruct (validation_loss s) as [vl|] eqn:Evl;
      [|now contradiction (Hbound eq_refl)].
    unfold ret at 1. rewrite (bind_Ok _ _ s1 s1 tt) by reflexivity.
    destruct (checkpoint_phase_bound modeldir save_name epoch tl s1 vl K4)
      as (s3 & stop & Hrun3 & Hstop & Htr3 & M1 & M2 & M3 & M4).
    exists s3, stop. split; [exact Hrun3|]. split; [|now eauto].
    split; [|split; [|split]].
    + rewrite Htr3, Htr1. unfold epoch_calls. list_eq.
    + exists tl. now rewrite M1, K2.
    + exists vl. rewrite M2, K3. now repeat split.
    + now rewrite M4, K5.
Qed.

(** An epoch that skips the validation while no validation loss is bound
    ends in the checkpoint phase, before anything is saved. *)
Lemma epoch_body_unbound (p : param) (ts vs : Dataset)
  (modeldir save_name : string) (epoch : Z) (s : St) :
  List.length (W ts) = List.length (X ts) ->
  trn_sampler epoch <> [] ->
  in_range (X ts) (trn_sampler epoch) ->
  evalmode p <> 0%Z ->
  validated epoch (evalmode p) = false ->
  validation_loss s = None ->
  exists s',
    epoch_body p ts vs modeldir save_name epoch s
    = (s', Err (UnboundLocalError "validation_loss"))
    /\ trace s' = trace s ++ ModelTrain epoch
                    :: repeat OptimizerStep (List.length (trn_sampler epoch))
                    ++ [OptimizerSwap]
    /\ val_losses s' = val_losses s
    /\ saved s' = saved s.
Proof.
  intros HWt Hne Hr Hem Ev Hv.
  destruct (training_phase_ok p ts epoch s HWt Hr Hne)
    as (s1 & tl & Hrun1 & Htr1 & K1 & K2 & K3 & K4 & K5).
  unfold epoch_body. rewrite (bind_Ok _ _ _ _ _ Hrun1).
  unfold lift at 1. rewrite (bind_Ok _ _ s1 s1 false)
    by now rewrite validates_nonzero, Ev.
  unfold ret at 1. rewrite (bind_Ok _ _ s1 s1 tt) by reflexivity.
  rewrite <- K4 in Hv.
  destruct (checkpoint_phase_unbound modeldir save_name epoch tl s1 Hv)
    as (s2 & Hrun2 & Htr2 & _ & M2 & M3).
  exists s2. split; [exact Hrun2|].
  now rewrite Htr2, Htr1, M2, M3, K3, K5.
Qed.

Lemma epoch_step_bound (p : param) (modeldir save_name : string) (epoch : Z)
  (s s' : St) :
  epoch_step p modeldir save_name epoch s s' -> validation_loss s' <> None.
Proof.
  intros (_ & _ & (vl & _ & H & _) & _). now rewrite H.
Qed.

(** The loop over the epochs runs the epochs up to the first one at which
    the scheduler says stop. *)
Lemma epoch_loop_ok (p : param) (ts vs : Dataset) (modeldir save_name : string) :
  List.length (W ts) = List.length (X ts) ->
  List.length (W vs) = List.length (X vs) ->
  loaders_ok (X ts) (X vs) ->
  evalmode p <> 0%Z ->
  forall (es : list Z) (s : St),
    (forall e, hd_error es = Some e ->
               validated e (evalmode p) = false -> validation_loss s <> None) ->
    exists s' done rest,
      epoch_loop p ts vs modeldir save_name es s = (s', Ok tt)
      /\ es = done ++ rest
      /\ epochs_run p modeldir save_name done s s'
      /\ ((forall sc vl, snd (scheduler_step sc vl) = false) -> rest = []).
Proof.
  intros HWt HWv Hl Hem es.
  induction es as [|e es IH]; intros s Hb.
  - exists s, [], []. repeat split. constructor.
  - destruct (epoch_body_ok p ts vs modeldir save_name e s HWt HWv Hl Hem
                (Hb e eq_refl)) as (s1 & stop & Hrun & Hstep & sc & vl & Hstop).
    cbn [epoch_loop]. rewrite (bind_Ok _ _ _ _ _ Hrun).
    destruct stop.
    + exists s1, [e], es. repeat split.
      * econstructor; [exact Hstep|constructor].
      * intros Hnever. rewrite Hnever in Hstop. discriminate.
    + destruct (IH s1) as (s2 & done & rest & Hrun2 & Hes & Hrun3 & Hrest).
      { intros _ _ _. now apply epoch_step_bound in Hstep. }
      exists s2, (e :: done), rest. rewrite Hrun2, Hes. repeat split.
      * econstructor; eassumption.
      * exact Hrest.
Qed.

Lemma range_cons (a b : Z) : (a < b)%Z -> range a b = a :: range (a + 1) b.
Proof.
  intros H. unfold range.
  replace (Z.to_nat (b - a)) with (S (Z.to_nat (b - (a + 1)))) by lia.
  cbn [seq map]. rewrite <- seq_shift, map_map. f_equal; [lia|].
  apply map_ext. intros i. lia.
Qed.

(** The weights of the data sets [train] builds come one per sample. *)
Lemma default_weights_fit (weights : option Tensor1) (x : Tensor2) :
  weights_fit weights x ->
  List.length match weights with
              | None => ones (List.length x)
              | Some w => w
              end = List.length x.
Proof.
  destruct weights as [w|]; cbn; [auto|]. intros _. apply repeat_length.
Qed.

(** A run whose first epoch validates and whose loaders are in order runs
    its epochs to their ends, up to the first stop. *)
Lemma train_ok (model : Params) (optimizer : OptState * Params)
  (scheduler : SchedState) (trn_x val_x : Tensor2)
  (trn_weights val_weights : option Tensor1) (p : param)
  (modeldir save_name : string) :
  weights_fit trn_weights trn_x ->
  weights_fit val_weights val_x ->
  loaders_ok trn_x val_x ->
  evalmode p <> 0%Z ->
  validated (start_epoch p) (evalmode p) = true ->
  exists s done rest,
    train model optimizer scheduler trn_x val_x trn_weights val_weights p
          modeldir save_name = (s, Ok tt)
    /\ range (start_epoch p) (start_epoch p + epochs p) = done ++ rest
    /\ epochs_run p modeldir save_name done
                  (mkSt model (snd optimizer) (fst optimizer) scheduler
                        [] [] None [] []) s
    /\ ((forall sc vl, snd (scheduler_step sc vl) = false) -> rest = []).
Proof.
  intros Ht Hv Hl Hem H0. unfold train.
  apply epoch_loop_ok; cbn [X W]; try assumption.
  - now apply default_weights_fit.
  - now apply default_weights_fit.
  - intros e He Hskip. exfalso.
    destruct (Z_lt_le_dec 0 (epochs p)) as [Hpos|Hle].
    + rewrite range_cons in He by lia. injection He as <-. congruence.
    + unfold range in He.
      replace (Z.to_nat (start_epoch p + epochs p - start_epoch p)) with 0%nat
        in He by lia.
      discriminate.
Qed.

End TrainingFacts.

Lemma validated_false (epoch evalmode : Z) :
  epoch <> 0%Z -> (epoch mod evalmode <> 0)%Z -> validated epoch evalmode = false.
Proof.
  intros H0 Hm. unfold validated.
  destruct (Z.eqb_spec epoch 0); [contradiction|].
  destruct (Z.eqb_spec (epoch mod evalmode) 0); [contradiction|reflexivity].
Qed.

Lemma count_swaps_app (tr tr' : list Event) :
  count_swaps (tr ++ tr') = (count_swaps tr + count_swaps tr')%nat.
Proof.
  unfold count_swaps. now rewrite filter_app, length_app.
Qed.

Lemma count_swaps_steps (n : nat) : count_swaps (repeat OptimizerStep n) = 0%nat.
Proof.
  induction n as [|n IH]; [reflexivity|exact IH].
Qed.

(** The first epoch of a run that starts on an epoch without validation. *)
Lemma first_epoch_unbound {C : Collaborators} (p : param) (ts vs : Dataset)
  (modeldir save_name : string) (epoch : Z) (rest : list Z) (s : St) :
  List.length (W ts) = List.length (X ts) ->
  trn_sampler epoch <> [] ->
  in_range (X ts) (trn_sampler epoch) ->
  evalmode p <> 0%Z ->
  validated epoch (evalmode p) = false ->
  validation_loss s = None ->
  exists s',
    epoch_loop p ts vs modeldir save_name (epoch :: rest) s
    = (s', Err (UnboundLocalError "validation_loss"))
    /\ trace s' = trace s ++ ModelTrain epoch
                    :: repeat OptimizerStep (List.length (trn_sampler epoch))
                    ++ [OptimizerSwap]
    /\ val_losses s' = val_losses s
    /\ saved s' = saved s.
Proof.
  intros HW Hne Hr Hem Ev Hv.
  destruct (epoch_body_unbound p ts vs modeldir save_name epoch s
              HW Hne Hr Hem Ev Hv) as (s' & Hrun & H).
  exists s'. split; [|exact H].
  cbn [epoch_loop]. now apply bind_Err.
Qed.

(** C9: a run of [train] with at least one epoch whose first epoch index is
    neither 0 nor divisible by [evalmode] (and whose training loader is in
    order, so that the training phase of that epoch runs to its end) skips
    the validation in its first epoch and ends with the unbound-variable
    error for [validation_loss]: after the training batches and one
    [optimizer.swap()], with no validation loss logged, no scheduler step
    and no checkpoint saved. *)
Theorem train_unbound_validation_loss {C : Collaborators} (model : Params)
  (optimizer : OptState * Params) (scheduler : SchedState)
  (trn_x val_x : Tensor2) (trn_weights val_weights : option Tensor1)
  (p : param) (modeldir save_name : string) :
  (0 < epochs p)%Z ->
  evalmode p <> 0%Z ->
  start_epoch p <> 0%Z ->
  (start_epoch p mod evalmode p <> 0)%Z ->
  weights_fit trn_weights trn_x ->
  trn_sampler (start_epoch p) <> [] ->
  in_range trn_x (trn_sampler (start_epoch p)) ->
  exists s,
    train model optimizer scheduler trn_x val_x trn_weights val_weights p
          modeldir save_name
    = (s, Err (UnboundLocalError "validation_loss"))
    /\ trace s = ModelTrain (start_epoch p)
                   :: repeat OptimizerStep
                        (List.length (trn_sampler (start_epoch p)))
                   ++ [OptimizerSwap]
    /\ count_swaps (trace s) = 1%nat
    /\ val_losses s = []
    /\ saved s = [].
Proof.
  intros Hep Hem H0 Hmod Hfit Hne Hr. unfold train.
  rewrite range_cons by lia.
  match goal with |- exists _, epoch_loop _ ?ts ?vs _ _ (_ :: ?rest) ?s0 = _ /\ _ =>
    destruct (first_epoch_unbound p ts vs modeldir save_name (start_epoch p)
                rest s0) as (s & Hrun & Htr & Hvl & Hsv);
      cbn [X W validation_loss]; try assumption; try reflexivity
  end.
  - now apply default_weights_fit.
  - now apply validated_false.
  - exists s. split; [exact Hrun|]. cbn [trace val_losses saved app] in *.
    rewrite Htr. repeat split; try assumption.
    match goal with |- count_swaps (?e :: ?l) = _ =>
      change (e :: l) with ([e] ++ l)
    end.
    now rewrite !count_swaps_app, count_swaps_steps.
Qed.

Lemma still_in_range : in_range [[Fin 0]] [[0%nat]].
Proof.
  repeat constructor.
Qed.

(** A run of C9: one epoch, started at epoch 1 with a validation every
    second epoch. *)
Lemma train_unbound_validation_loss_witness :
  exists s,
    still_run (mkParam 1 1 (Fin 1) 2)
    = (s, Err (UnboundLocalError "validation_loss"))
    /\ trace s = [ModelTrain 1; OptimizerStep; OptimizerSwap]
    /\ count_swaps (trace s) = 1%nat
    /\ val_losses s = []
    /\ saved s = [].
Proof.
  apply (train_unbound_validation_loss (C := still) tt (tt, tt) tt
           [[Fin 0]] [[Fin 0]] None None (mkParam 1 1 (Fin 1) 2)
           "checkpoint" "dbnf").
  - reflexivity.
  - discriminate.
  - discriminate.
  - discriminate.
  - exact I.
  - discriminate.
  - exact still_in_range.
Defined.

(** ** The swaps of an epoch *)

Lemma view_after_app (tr tr' : list Event) :
  view_after (tr ++ tr')
  = fold_left (fun v ev => if is_swap ev then toggle v else v) tr' (view_after tr).
Proof.
  unfold view_after. apply fold_left_app.
Qed.

Lemma view_after_steps (n : nat) (v : View) :
  fold_left (fun v ev => if is_swap ev then toggle v else v)
            (repeat OptimizerStep n) v = v.
Proof.
  induction n as [|n IH]; [reflexivity|exact IH].
Qed.

Lemma toggle_toggle (v : View) : toggle (toggle v) = v.
Proof.
  now destruct v.
Qed.

(** An epoch with validation swaps twice and leaves the live view as it
    found it; an epoch without validation swaps once and leaves the other
    view live. *)
Lemma epoch_step_swaps {C : Collaborators} (p : param)
  (modeldir save_name : string) (epoch : Z) (s s' : St) :
  epoch_step p modeldir save_name epoch s s' ->
  count_swaps (trace s')
  = (count_swaps (trace s) + if validated epoch (evalmode p) then 2 else 1)%nat
  /\ view_after (trace s')
     = if validated epoch (evalmode p) then view_after (trace s)
       else toggle (view_after (trace s)).
Proof.
  intros (Htr & _). rewrite Htr. unfold epoch_calls.
  match goal with |- context [?e :: repeat OptimizerStep ?n ++ ?l] =>
    change (e :: repeat OptimizerStep n ++ l)
      with ([e] ++ repeat OptimizerStep n ++ l)
  end.
  rewrite !count_swaps_app, count_swaps_steps.
  rewrite view_after_app, !fold_left_app, view_after_steps.
  destruct (validated epoch (evalmode p)); cbn.
  - now rewrite toggle_toggle.
  - split; [lia|reflexivity].
Qed.

Lemma still_loaders_ok : loaders_ok (C := still) [[Fin 0]] [[Fin 0]].
Proof.
  intros epoch. cbn. repeat split; try discriminate; exact still_in_range.
Qed.

(** The example run with the epochs 0, 1 and 2 and a validation every
    second epoch: the epochs that run to their ends. *)
Lemma still_run_3 :
  exists s s0 s1,
    still_run (mkParam 0 3 (Fin 1) 2) = (s, Ok tt)
    /\ epoch_step (C := still) (mkParam 0 3 (Fin 1) 2) "checkpoint" "dbnf" 0
                  (mkSt (C := still) tt tt tt tt [] [] None [] []) s0
    /\ epoch_step (C := still) (mkParam 0 3 (Fin 1) 2) "checkpoint" "dbnf" 1 s0 s1
    /\ epoch_step (C := still) (mkParam 0 3 (Fin 1) 2) "checkpoint" "dbnf" 2 s1 s.
Proof.
  destruct (train_ok (C := still) tt (tt, tt) tt [[Fin 0]] [[Fin 0]] None None
              (mkParam 0 3 (Fin 1) 2) "checkpoint" "dbnf" I I
              still_loaders_ok ltac:(discriminate) eq_refl)
    as (s & done & rest & Hrun & Hsplit & Hruns & Hrest).
  rewrite (Hrest (fun _ _ => eq_refl)), app_nil_r in Hsplit.
  subst done. cbn in Hruns.
  inversion Hruns as [|e0 r0 a0 s0 b0 H0 Hruns0]; subst.
  inversion Hruns0 as [|e1 r1 a1 s1 b1 H1 Hruns1]; subst.
  inversion Hruns1 as [|e2 r2 a2 s2 b2 H2 Hruns2]; subst.
  inversion Hruns2; subst.
  exists s, s0, s1. unfold still_run.
  split; [exact Hrun|]. split; [exact H0|]. split; [exact H1|exact H2].
Qed.

(** C2, at a failing input: the example run with the epochs 0, 1 and 2 and
    a validation every second epoch.  Epoch 1 skips the validation and with
    it the second [optimizer.swap()]: the run makes 2 + 1 + 2 swaps, and
    the training phase of epoch 2 starts on the averaged parameters. *)
Theorem train_swap_unmatched :
  exists s,
    still_run (mkParam 0 3 (Fin 1) 2) = (s, Ok tt)
    /\ count_swaps (trace s) = 5%nat
    /\ views_at_train RAW (trace s) = [(0%Z, RAW); (1%Z, RAW); (2%Z, AVERAGED)]
    /\ view_after (trace s) = AVERAGED.
Proof.
  destruct still_run_3 as (s & s0 & s1 & Hrun & (H0 & _) & (H1 & _) & (H2 & _)).
  exists s. split; [exact Hrun|].
  rewrite H2, H1, H0. cbn. repeat split.
Qed.

(** ** The checkpoints of a run *)

(** An epoch without validation logs again the validation loss that is
    bound when it starts, and leaves it bound. *)
Lemma epoch_step_relog {C : Collaborators} (p : param)
  (modeldir save_name : string) (epoch : Z) (s s' : St) :
  epoch_step p modeldir save_name epoch s s' ->
  validated epoch (evalmode p) = false ->
  exists vl,
    validation_loss s = Some vl
    /\ val_losses s' = val_losses s ++ [vl]
    /\ validation_loss s' = Some vl.
Proof.
  intros (_ & _ & (vl & Hvl & Hb & Hskip) & _) Hv.
  exists vl. auto.
Qed.

(** The epochs that run to their ends each save one checkpoint, named after
    the epoch and holding its index, and each log one training loss and one
    validation loss. *)
Lemma epochs_run_checkpoints {C : Collaborators} (p : param)
  (modeldir save_name : string) (done : list Z) (s s' : St) :
  epochs_run p modeldir save_name done s s' ->
  map fst (saved s')
  = map fst (saved s) ++ map (checkpoint_name modeldir save_name) done
  /\ map (fun f => ck_epoch (snd f)) (saved s')
     = map (fun f => ck_epoch (snd f)) (saved s) ++ done
  /\ List.length (trn_losses s')
     = (List.length (trn_losses s) + List.length done)%nat
  /\ List.length (val_losses s')
     = (List.length (val_losses s) + List.length done)%nat.
Proof.
  induction 1 as [s|e rest s s1 s2 Hstep _ (IH1 & IH2 & IH3 & IH4)].
  - cbn. rewrite !app_nil_r. repeat split; lia.
  - destruct Hstep as (_ & (tl & Htl) & (vl & Hvl & _) & Hsv).
    rewrite IH1, IH2, IH3, IH4, Hsv, Htl, Hvl.
    rewrite !map_app, !length_app. cbn [map fst snd ck_epoch List.length].
    repeat split; try lia; list_eq.
Qed.

(** A run whose first epoch validates and whose loaders are in order saves
    one checkpoint for every epoch it runs, named after the epoch. *)
Lemma train_checkpoints {C : Collaborators} (model : Params)
  (optimizer : OptState * Params) (scheduler : SchedState)
  (trn_x val_x : Tensor2) (trn_weights val_weights : option Tensor1)
  (p : param) (modeldir save_name : string) :
  weights_fit trn_weights trn_x ->
  weights_fit val_weights val_x ->
  loaders_ok trn_x val_x ->
  evalmode p <> 0%Z ->
  validated (start_epoch p) (evalmode p) = true ->
  exists s done rest,
    train model optimizer scheduler trn_x val_x trn_weights val_weights p
          modeldir save_name = (s, Ok tt)
    /\ range (start_epoch p) (start_epoch p + epochs p) = done ++ rest
    /\ map fst (saved s) = map (checkpoint_name modeldir save_name) done
    /\ map (fun f => ck_epoch (snd f)) (saved s) = done
    /\ List.length (trn_losses s) = List.length done
    /\ List.length (val_losses s) = List.length done.
Proof.
  intros Ht Hv Hl Hem H0.
  destruct (train_ok model optimizer scheduler trn_x val_x trn_weights
              val_weights p modeldir save_name Ht Hv Hl Hem H0)
    as (s & done & rest & Hrun & Hsplit & Hruns & _).
  exists s, done, rest. split; [exact Hrun|]. split; [exact Hsplit|].
  apply epochs_run_checkpoints in Hruns. exact Hruns.
Qed.

(** C6, at a failing input: the example run started at epoch 1 with a
    validation every second epoch.  The first epoch skips the validation,
    no validation loss was computed before, and the run ends in the
    unbound-variable error: nothing is appended to the validation-loss
    history and no checkpoint is saved. *)
Theorem train_no_checkpoint :
  exists s,
    still_run (mkParam 1 2 (Fin 1) 2)
    = (s, Err (UnboundLocalError "validation_loss"))
    /\ val_losses s = []
    /\ saved s = [].
Proof.
  unfold still_run, train.
  rewrite range_cons by (cbn; lia).
  match goal with |- exists _, epoch_loop _ ?ts ?vs _ _ (_ :: ?rest) ?s0 = _ /\ _ =>
    destruct (first_epoch_unbound (C := still) (mkParam 1 2 (Fin 1) 2) ts vs
                "checkpoint" "dbnf" 1 rest s0)
      as (s & Hrun & _ & Hvl & Hsv);
      try reflexivity; try discriminate; try exact still_in_range
  end.
  exists s. cbn in *. now repeat split.
Qed.

(** ** Weights left out *)

Lemma gather_length {A : Type} (t : list A) (index : list nat) (r : list A) :
  gather t index = Ok r -> List.length r = List.length index.
Proof.
  revert r. induction index as [|i index IH]; intros r; cbn [gather].
  - now intros [= <-].
  - destruct (getitem t i) as [a|e]; cbn [rbind]; [|discriminate].
    destruct (gather t index) as [r'|e]; cbn [rbind]; [|discriminate].
    intros [= <-]. cbn. now rewrite (IH r' eq_refl).
Qed.

Lemma gather_ones (n : nat) (index : list nat) (w : Tensor1) :
  gather (ones n) index = Ok w -> w = ones (List.length index).
Proof.
  revert w. induction index as [|i index IH]; intros w; cbn [gather].
  - now intros [= <-].
  - unfold getitem. destruct (nth_error (ones n) i) as [a|] eqn:E;
      cbn [rbind]; [|discriminate].
    destruct (gather (ones n) index) as [w'|e]; cbn [rbind]; [|discriminate].
    intros [= <-]. apply nth_error_In, repeat_spec in E. subst a.
    cbn. now rewrite (IH w' eq_refl).
Qed.

Lemma tsum_ones (k : nat) : tsum (ones k) = Fin (INR k).
Proof.
  assert (H : forall a, fold_left add (ones k) (Fin a) = Fin (a + INR k)).
  { induction k as [|k IH]; intros a.
    - cbn. f_equal. lra.
    - cbn [ones repeat fold_left add]. fold (ones k).
      rewrite IH, S_INR. f_equal. lra. }
  unfold tsum. rewrite H. f_equal. lra.
Qed.

Lemma zip_with_repeat {A B D : Type} (f : A -> B -> D) (a : A) (l : list B) :
  zip_with f (repeat a (List.length l)) l = map (f a) l.
Proof.
  induction l as [|b l IH]; [reflexivity|]. cbn. now rewrite IH.
Qed.

(** With unit weights every sample of a batch enters the loss with the
    weight one over the size of the batch. *)
Lemma lossfunc_ones (model : Model) (x : Tensor2) :
  lossfunc model x (ones (List.length x))
  = Ok (neg (tsum (map (mul (Fin (1 / INR (List.length x))))
                       (compute_log_p_x model x)))).
Proof.
  rewrite lossfunc_same_length by apply repeat_length.
  do 3 f_equal. rewrite tsum_ones.
  replace (ones (List.length x))
    with (repeat (Fin 1) (List.length (compute_log_p_x model x)))
    by now rewrite compute_log_p_x_length.
  rewrite zip_with_repeat.
  destruct x as [|row x]; [now rewrite compute_log_p_x_rows|].
  apply map_ext. intros lp. f_equal.
  apply div_Fin_nonzero. apply not_0_INR. discriminate.
Qed.



(** * More of the code: properties *)

(** ** Dataset *)

Lemma gather_nth {A : Type} (t : list A) (index : list nat) (r : list A) :
  gather t index = Ok r ->
  forall k i, nth_error index k = Some i -> nth_error r k = nth_error t i.
Proof.
  revert r. induction index as [|j index IH]; intros r; cbn [gather].
  - intros _ [|k] i; discriminate.
  - unfold getitem. destruct (nth_error t j) as [a|] eqn:E;
      cbn [rbind]; [|discriminate].
    destruct (gather t index) as [r'|e]; cbn [rbind]; [|discriminate].
    intros [= <-] [|k] i; cbn [nth_error].
    + now intros [= <-].
    + now apply IH.
Qed.

Lemma gather_error {A : Type} (t : list A) (index : list nat) (e : exn) :
  gather t index = Err e ->
  e = IndexError /\ Exists (fun i => (List.length t <= i)%nat) index.
Proof.
  induction index as [|j index IH]; cbn [gather]; [discriminate|].
  unfold getitem. destruct (nth_error t j) as [a|] eqn:E; cbn [rbind].
  - destruct (gather t index) as [r'|e']; cbn [rbind]; [discriminate|].
    intros [= <-]. destruct (IH eq_refl) as [-> H]. split; [reflexivity|].
    now apply Exists_cons_tl.
  - intros [= <-]. split; [reflexivity|].
    apply Exists_cons_hd. now apply nth_error_None.
Qed.

Lemma gather_ok_in_range {A : Type} (t : list A) (index : list nat) (r : list A) :
  gather t index = Ok r -> Forall (fun i => (i < List.length t)%nat) index.
Proof.
  revert r. induction index as [|j index IH]; intros r; cbn [gather];
    [constructor|].
  unfold getitem. destruct (nth_error t j) as [a|] eqn:E;
    cbn [rbind]; [|discriminate].
  destruct (gather t index) as [r'|e]; cbn [rbind]; [|discriminate].
  intros _. constructor; [|now apply (IH r')].
  apply nth_error_Some. congruence.
Qed.

(** X1: [Dataset.__getitem__] with a list of indices that all lie inside
    the features and inside the weights returns one row and one weight per
    index, in the order of the indices: the entry at position [k] is the
    row and the weight of the sample with index [index[k]]. *)
Theorem Dataset_getitem_pairs (d : Dataset) (index : list nat) :
  Forall (fun i => ~ out_of_range d i) index ->
  exists x w,
    Dataset_getitem d index = Ok (x, w)
    /\ List.length x = List.length index
    /\ List.length w = List.length index
    /\ forall k i, nth_error index k = Some i ->
                   nth_error x k = nth_error (X d) i
                   /\ nth_error w k = nth_error (W d) i.
Proof.
  intros H. unfold Dataset_getitem.
  assert (HX : Forall (fun i => (i < List.length (X d))%nat) index).
  { eapply Forall_impl; [|exact H]. unfold out_of_range. intros i Hi. lia. }
  assert (HW : Forall (fun i => (i < List.length (W d))%nat) index).
  { eapply Forall_impl; [|exact H]. unfold out_of_range. intros i Hi. lia. }
  destruct (gather_in_range (X d) index HX) as (x & Hx & Hlx).
  destruct (gather_in_range (W d) index HW) as (w & Hw & Hlw).
  exists x, w. rewrite Hx, Hw. cbn [rbind].
  repeat split; try assumption.
  - now apply (gather_nth (X d) index x Hx).
  - now apply (gather_nth (W d) index w Hw).
Qed.

(** A run of X1: the samples 2 and 0 of a data set of three. *)
Lemma Dataset_getitem_pairs_witness :
  exists x w,
    Dataset_getitem (mkDataset [[Fin 0]; [Fin 1]; [Fin 2]] [Fin 5; Fin 6; Fin 7])
                    [2%nat; 0%nat] = Ok (x, w)
    /\ nth_error x 0 = Some [Fin 2] /\ nth_error w 0 = Some (Fin 7).
Proof.
  destruct (Dataset_getitem_pairs
              (mkDataset [[Fin 0]; [Fin 1]; [Fin 2]] [Fin 5; Fin 6; Fin 7])
              [2%nat; 0%nat]) as (x & w & Hrun & _ & _ & Hnth).
  - repeat constructor; unfold out_of_range; cbn; lia.
  - exists x, w. split; [exact Hrun|]. exact (Hnth 0%nat 2%nat eq_refl).
Defined.

(** X2: [Dataset.__getitem__] raises [IndexError] exactly when one of the
    indices lies outside the features or outside the weights (the class
    never checks that there are as many weights as samples), and it raises
    nothing else. *)
Theorem Dataset_getitem_error (d : Dataset) (index : list nat) (e : exn) :
  Dataset_getitem d index = Err e
  <-> e = IndexError /\ Exists (out_of_range d) index.
Proof.
  unfold Dataset_getitem. split.
  - destruct (gather (X d) index) as [x|e1] eqn:Ex; cbn [rbind].
    + destruct (gather (W d) index) as [w|e2] eqn:Ew; cbn [rbind];
        [discriminate|].
      intros [= <-]. destruct (gather_error (W d) index e2 Ew) as [-> H].
      split; [reflexivity|].
      eapply Exists_impl; [|exact H]. intros i Hi. now right.
    + intros [= <-]. destruct (gather_error (X d) index e1 Ex) as [-> H].
      split; [reflexivity|].
      eapply Exists_impl; [|exact H]. intros i Hi. now left.
  - intros [-> H].
    destruct (gather (X d) index) as [x|e1] eqn:Ex; cbn [rbind].
    + destruct (gather (W d) index) as [w|e2] eqn:Ew; cbn [rbind].
      * exfalso. apply gather_ok_in_range in Ex, Ew.
        apply Exists_exists in H. destruct H as (i & Hin & [Hi|Hi]).
        -- rewrite Forall_forall in Ex. specialize (Ex i Hin). lia.
        -- rewrite Forall_forall in Ew. specialize (Ew i Hin). lia.
      * now destruct (gather_error (W d) index e2 Ew) as [-> _].
    + now destruct (gather_error (X d) index e1 Ex) as [-> _].
Qed.

(** A run of X2: two samples and a single weight; the sample with index 1
    has no weight. *)
Lemma Dataset_getitem_error_witness :
  Dataset_getitem (mkDataset [[Fin 0]; [Fin 1]] [Fin 1]) [1%nat]
  = Err IndexError.
Proof.
  apply (proj2 (Dataset_getitem_error
                  (mkDataset [[Fin 0]; [Fin 1]] [Fin 1]) [1%nat] IndexError)).
  split; [reflexivity|]. apply Exists_cons_hd. right. cbn. lia.
Defined.

(** ** lossfunc: more *)

Lemma sign_scale (c r : R) : (0 < c)%R -> sign (c * r) = sign r.
Proof.
  intros Hc. unfold sign.
  destruct (Rlt_dec r 0), (Rlt_dec (c * r) 0); try reflexivity; try nra.
  destruct (Rlt_dec 0 r), (Rlt_dec 0 (c * r)); try reflexivity; nra.
Qed.

Lemma div_scale (c w s : R) :
  (0 < c)%R -> div (Fin (c * w)) (Fin (c * s)) = div (Fin w) (Fin s).
Proof.
  intros Hc. cbn [div]. rewrite !(sign_scale c) by exact Hc.
  destruct (sign s) eqn:E; try reflexivity; f_equal; field; split;
    try lra; intros ->; rewrite sign_zero in E; discriminate.
Qed.

Lemma Rsum_scale_l (ws : list R) (c : R) :
  Rsum (map (fun w => (c * w)%R) ws) = (c * Rsum ws)%R.
Proof.
  induction ws as [|w ws IH]; cbn [map Rsum]; [ring|]. rewrite IH. ring.
Qed.

(** X3: [lossfunc] does not change when all the weights of the batch are
    multiplied by one positive factor: only the proportions of the
    (finite) weights enter the loss. *)
Theorem lossfunc_scale (model : Model) (x : Tensor2) (ws : list R) (c : R) :
  (0 < c)%R ->
  lossfunc model x (map (fun w => Fin (c * w)) ws)
  = lossfunc model x (map Fin ws).
Proof.
  intros Hc. unfold lossfunc.
  assert (Hs : tsum (map (fun w => Fin (c * w)) ws) = Fin (c * Rsum ws)).
  { rewrite <- (map_map (fun w => (c * w)%R) Fin ws).
    now rewrite tsum_Fin, Rsum_scale_l. }
  replace (map (fun wi => div wi (tsum (map (fun w => Fin (c * w)) ws)))
               (map (fun w => Fin (c * w)) ws))
    with (map (fun wi => div wi (tsum (map Fin ws))) (map Fin ws));
    [reflexivity|].
  rewrite Hs, tsum_Fin, !map_map.
  apply map_ext. intros w. symmetry. now apply div_scale.
Qed.

(** A run of X3: the weights 1 and 3, and ten times as much. *)
Lemma lossfunc_scale_witness :
  lossfunc identity_flow [[Fin 0]; [Fin 1]] [Fin (10 * 1); Fin (10 * 3)]
  = lossfunc identity_flow [[Fin 0]; [Fin 1]] [Fin 1; Fin 3].
Proof.
  apply (lossfunc_scale identity_flow [[Fin 0]; [Fin 1]] [1; 3]%R 10).
  lra.
Defined.

Lemma zip_with_Fin (f : num -> num -> num) (g : R -> R -> R) (a b : list R) :
  (forall u v, f (Fin u) (Fin v) = Fin (g u v)) ->
  zip_with f (map Fin a) (map Fin b) = map Fin (zip_with g a b).
Proof.
  intros H. revert b. induction a as [|u a IH]; intros [|v b]; cbn;
    try reflexivity.
  now rewrite H, IH.
Qed.

Lemma weighted_sum_bounds (ws ls : list R) (lo hi : R) :
  List.length ws = List.length ls ->
  Forall (fun w => (0 <= w)%R) ws ->
  Forall (fun l => (lo <= l <= hi)%R) ls ->
  (lo * Rsum ws <= Rsum (zip_with Rmult ws ls) <= hi * Rsum ws)%R.
Proof.
  revert ls. induction ws as [|w ws IH]; intros [|l ls] Hlen Hw Hl;
    try discriminate; cbn [zip_with Rsum].
  - lra.
  - inversion Hw as [|? ? Hw0 Hws]; subst.
    inversion Hl as [|? ? Hl0 Hls]; subst.
    injection Hlen as Hlen.
    specialize (IH ls Hlen Hws Hls). nra.
Qed.

Lemma zip_with_normalised (ws ls : list R) (s : R) :
  Rsum (zip_with (fun w l => (w / s * l)%R) ws ls)
  = (Rsum (zip_with Rmult ws ls) / s)%R.
Proof.
  revert ls. induction ws as [|w ws IH]; intros [|l ls]; cbn [zip_with Rsum];
    try (unfold Rdiv; ring).
  rewrite IH. unfold Rdiv. ring.
Qed.



Lemma tsum_zeros (n : nat) : tsum (repeat (Fin 0) n) = Fin 0.
Proof.
  replace (repeat (Fin 0) n) with (map Fin (repeat 0%R n))
    by now rewrite map_repeat.
  rewrite tsum_Fin. f_equal.
  induction n as [|n IH]; cbn [repeat Rsum]; [reflexivity|]. rewrite IH. lra.
Qed.

Lemma fold_add_NaN (l : list num) : fold_left add l NaN = NaN.
Proof.
  induction l as [|a l IH]; [reflexivity|exact IH].
Qed.

(** X5: on a batch that is not empty and whose weights are all zero,
    [lossfunc] raises nothing and returns NaN: the normalisation divides
    zero by zero. *)
Theorem lossfunc_zero_weights (model : Model) (x : Tensor2) :
  x <> [] ->
  lossfunc model x (repeat (Fin 0) (List.length x)) = Ok NaN.
Proof.
  intros Hx. rewrite lossfunc_same_length by apply repeat_length.
  rewrite tsum_zeros, compute_log_p_x_rows.
  destruct x as [|row x]; [congruence|].
  cbn [List.length repeat map zip_with div]. rewrite sign_zero.
  cbn [inf_of mul]. unfold tsum. cbn [fold_left add].
  now rewrite fold_add_NaN.
Qed.

(** A run of X5: one sample with the weight zero. *)
Lemma lossfunc_zero_weights_witness :
  lossfunc identity_flow [[Fin 1]] [Fin 0] = Ok NaN.
Proof.
  apply (lossfunc_zero_weights identity_flow [[Fin 1]]). discriminate.
Defined.

(** X6: [lossfunc] raises [RuntimeError] when the number of weights differs
    from the number of samples and neither of the two is one, the one case
    in which the product of the log-likelihoods and the weights would be
    broadcast. *)
Theorem lossfunc_shape_error (model : Model) (x : Tensor2) (weights : Tensor1) :
  List.length weights <> List.length x ->
  List.length weights <> 1%nat ->
  List.length x <> 1%nat ->
  lossfunc model x weights = Err RuntimeError.
Proof.
  intros Hne Hw Hx. unfold lossfunc, broadcast.
  rewrite compute_log_p_x_length, length_map.
  destruct (Nat.eqb_spec (List.length x) (List.length weights)); [congruence|].
  pose proof (compute_log_p_x_length model x) as Hl.
  pose proof (length_map (fun wi => div wi (tsum weights)) weights) as Hm.
  destruct (compute_log_p_x model x) as [|a [|a' l]];
    destruct (map (fun wi => div wi (tsum weights)) weights) as [|b [|b' l']];
    cbn in Hl, Hm; try reflexivity; congruence.
Qed.

(** A run of X6: two samples, three weights. *)
Lemma lossfunc_shape_error_witness :
  lossfunc identity_flow [[Fin 0]; [Fin 1]] [Fin 1; Fin 1; Fin 1]
  = Err RuntimeError.
Proof.
  apply (lossfunc_shape_error identity_flow [[Fin 0]; [Fin 1]]
           [Fin 1; Fin 1; Fin 1]); cbn; lia.
Defined.

(** ** get_pdf: more *)

Lemma std_log_pdf_Fin (ys : list R) :
  map Normal.std_log_pdf (map Fin ys)
  = map Fin (map (fun t => ln (Normal.std_pdf t)) ys).
Proof.
  rewrite !map_map. reflexivity.
Qed.

Lemma exp_Rsum_ln (ys : list R) :
  Rtrigo_def.exp (Rsum (map (fun t => ln (Normal.std_pdf t)) ys))
  = Rprod (map Normal.std_pdf ys).
Proof.
  induction ys as [|t ys IH]; cbn [map Rsum Rprod]; [apply exp_0|].
  rewrite exp_plus, IH, exp_ln by apply std_pdf_pos. reflexivity.
Qed.

Lemma exp_nonpos (r : R) : (r <= 0)%R -> (Rtrigo_def.exp r <= 1)%R.
Proof.
  intros [H| ->]; [|rewrite exp_0; lra].
  rewrite <- exp_0. left. now apply exp_increasing.
Qed.

Lemma std_pdf_max (t : R) : (Normal.std_pdf t <= / sqrt (2 * PI))%R.
Proof.
  unfold Normal.std_pdf, Rdiv.
  pose proof (Rinv_0_lt_compat _ sqrt_2PI_pos) as Hi.
  assert (H : (Rtrigo_def.exp (- (t * t) / 2) <= 1)%R).
  { apply exp_nonpos. pose proof (Rle_0_sqr t) as Hs. unfold Rsqr in Hs. lra. }
  nra.
Qed.

Lemma Rprod_std_pdf (ys : list R) :
  (0 < Rprod (map Normal.std_pdf ys) <= (/ sqrt (2 * PI)) ^ List.length ys)%R.
Proof.
  pose proof (Rinv_0_lt_compat _ sqrt_2PI_pos) as Hi.
  induction ys as [|t ys [IH1 IH2]]; cbn [map Rprod List.length pow]; [lra|].
  pose proof (std_pdf_pos t) as Hp. pose proof (std_pdf_max t) as Hm.
  split; [now apply Rmult_lt_0_compat|].
  apply Rmult_le_compat; lra.
Qed.



Lemma fold_add_NInf (l : list num) (acc : num) :
  Forall (fun v => v = NInf \/ exists r, v = Fin r) l ->
  (acc = NInf \/ exists r, acc = Fin r) ->
  acc = NInf \/ Exists (fun v => v = NInf) l ->
  fold_left add l acc = NInf.
Proof.
  intros Hl. revert acc. induction Hl as [|v l Hv _ IH]; intros acc Hacc Hex.
  - destruct Hex as [->|Hex]; [reflexivity|inversion Hex].
  - cbn [fold_left]. apply IH.
    + destruct Hacc as [->|[r ->]], Hv as [->|[r' ->]]; cbn; eauto.
    + destruct Hacc as [->|[r ->]].
      * left. now destruct Hv as [->|[r' ->]].
      * destruct Hex as [Hex|Hex]; [discriminate|].
        inversion Hex as [? ? Hv0|? ? Hex']; subst.
        -- left. reflexivity.
        -- destruct Hv as [->|[r' ->]]; [now left|now right].
Qed.

(** X8: at a sample that the model sends to a point with an infinite
    coordinate (and no NaN) with a finite log-determinant, [get_pdf] is
    exactly 0: the density vanishes at infinity. *)
Theorem get_pdf_at_infinity (model : Model) (x : Tensor2) (i : nat)
  (row y : list num) (log_diag : R) :
  nth_error x i = Some row ->
  model row = (y, Fin log_diag) ->
  Forall (fun v => v <> NaN) y ->
  Exists (fun v => v = PInf \/ v = NInf) y ->
  nth_error (get_pdf model x) i = Some (Fin 0).
Proof.
  intros Hrow Hm Hnan Hinf.
  unfold get_pdf. rewrite compute_log_p_x_rows, !nth_error_map, Hrow.
  cbn [option_map]. unfold log_p_row. rewrite Hm. cbn [fst snd].
  unfold tsum. rewrite fold_add_NInf; [reflexivity| | |].
  - apply Forall_map. eapply Forall_impl; [|exact Hnan].
    intros [r| | |] Hv; cbn; eauto. congruence.
  - right. now exists 0%R.
  - right. apply Exists_exists in Hinf. destruct Hinf as (v & Hin & Hv).
    apply Exists_exists. exists (Normal.std_log_pdf v).
    split; [now apply in_map|]. now destruct Hv as [-> | ->].
Qed.

(** A run of X8: the identity flow at a point with a coordinate +inf. *)
Lemma get_pdf_at_infinity_witness :
  nth_error (get_pdf identity_flow [[Fin 1; PInf]]) 0 = Some (Fin 0).
Proof.
  apply (get_pdf_at_infinity identity_flow [[Fin 1; PInf]] 0 [Fin 1; PInf]
           [Fin 1; PInf] 0).
  - reflexivity.
  - reflexivity.
  - repeat constructor; discriminate.
  - apply Exists_cons_tl, Exists_cons_hd. now left.
Defined.

(** ** predict: more *)

(** X9: [predict] reads the first two models only: with fewer than two it
    raises [IndexError], and any models after the second do not change its
    result. *)
Theorem predict_two_models (X0 : Tensor2) (models : list Model)
  (return_prob : option bool) (EPS : option num) :
  ((List.length models < 2)%nat ->
   predict X0 models return_prob EPS = Err IndexError)
  /\ forall m0 m1 rest,
      models = m0 :: m1 :: rest ->
      predict X0 models return_prob EPS = predict X0 [m0; m1] return_prob EPS.
Proof.
  split.
  - destruct models as [|m0 [|m1 rest]]; cbn [List.length]; try lia;
      reflexivity.
  - intros m0 m1 rest ->. now rewrite !predict_unfold.
Qed.

(** A run of X9: one model only. *)
Lemma predict_two_models_witness :
  predict [[Fin 0]] [identity_flow] None None = Err IndexError.
Proof.
  apply (proj1 (predict_two_models [[Fin 0]] [identity_flow] None None)).
  cbn. lia.
Defined.

(** One entry of the result of [predict] at finite densities, for a
    positive [EPS]. *)
Lemma predict_entry_finite (X0 : Tensor2) (m0 m1 : Model)
  (return_prob : option bool) (EPS : option num) (e : R) (i : nat) (s b : R) :
  kwarg EPS_default EPS = Fin e ->
  (0 < e)%R ->
  nth_error (get_pdf m1 X0) i = Some (Fin s) ->
  nth_error (get_pdf m0 X0) i = Some (Fin b) ->
  exists out,
    predict X0 [m0; m1] return_prob EPS = Ok out
    /\ nth_error out i
       = Some (Fin (if kwarg true return_prob
                    then s / Rmax (s + b) e else s / Rmax b e)).
Proof.
  intros HEPS He Hs Hb.
  pose proof (Rmax_r (s + b) e) as Hr. pose proof (Rmax_r b e) as Hr'.
  rewrite predict_unfold, HEPS. eexists. split; [reflexivity|].
  rewrite (nth_error_zip_with _ _ _ _ _ _ Hs Hb). unfold ratio1.
  destruct (kwarg true return_prob); cbn [add];
    rewrite np_maximum_Fin, div_Fin_pos by lra; reflexivity.
Qed.





(** X12: where the background density is finite and at least a positive
    [EPS] and the signal density is finite, the value with
    [return_prob = True] is [r / (1 + r)] for the value [r] with
    [return_prob = False]. *)
Theorem predict_prob_of_ratio (X0 : Tensor2) (m0 m1 : Model)
  (EPS : option num) (e : R) (i : nat) (s b : R) :
  kwarg EPS_default EPS = Fin e ->
  (0 < e)%R ->
  (e <= b)%R ->
  nth_error (get_pdf m1 X0) i = Some (Fin s) ->
  nth_error (get_pdf m0 X0) i = Some (Fin b) ->
  exists prob ratio v r,
    predict X0 [m0; m1] (Some true) EPS = Ok prob
    /\ predict X0 [m0; m1] (Some false) EPS = Ok ratio
    /\ nth_error prob i = Some (Fin v)
    /\ nth_error ratio i = Some (Fin r)
    /\ (v = r / (1 + r))%R.
Proof.
  intros HEPS He Hb' Hs Hb.
  destruct (predict_entry_finite X0 m0 m1 (Some true) EPS e i s b
              HEPS He Hs Hb) as (prob & Hrun & Hout).
  destruct (predict_entry_finite X0 m0 m1 (Some false) EPS e i s b
              HEPS He Hs Hb) as (ratio & Hrun' & Hout').
  cbn [kwarg] in Hout, Hout'.
  exists prob, ratio, (s / Rmax (s + b) e)%R, (s / Rmax b e)%R.
  repeat (split; [assumption|]).
  pose proof (get_pdf_nonneg _ _ _ _ Hs) as Hs0.
  rewrite !Rmax_left by lra. field. lra.
Qed.

(** A run of X12: the standard Gaussian against itself, at the origin. *)
Lemma predict_prob_of_ratio_witness :
  exists prob ratio v r,
    predict [[Fin 0]] [identity_flow; identity_flow] (Some true) None = Ok prob
    /\ predict [[Fin 0]] [identity_flow; identity_flow] (Some false) None
       = Ok ratio
    /\ nth_error prob 0 = Some (Fin v)
    /\ nth_error ratio 0 = Some (Fin r)
    /\ (v = r / (1 + r))%R.
Proof.
  apply (predict_prob_of_ratio [[Fin 0]] identity_flow identity_flow None
           (1 / 10 ^ 9) 0 (Normal.std_pdf 0) (Normal.std_pdf 0)
           eq_refl EPS_default_pos).
  - pose proof std_pdf_0. lra.
  - now rewrite get_pdf_identity_flow.
  - now rewrite get_pdf_identity_flow.
Defined.

(** ** create_model: more *)

Lemma range_empty (a b : Z) : (b <= a)%Z -> range a b = [].
Proof.
  intros H. unfold range. now replace (Z.to_nat (b - a)) with 0%nat by lia.
Qed.

Lemma range_length (a b : Z) : List.length (range a b) = Z.to_nat (b - a).
Proof.
  unfold range. now rewrite length_map, length_seq.
Qed.

Lemma block_layers_flat (mp : model_param) :
  block_layers mp
  = flat_map (fun _ => [MaskedWeight (n_dims mp * hidden_dim mp)
                                     (n_dims mp * hidden_dim mp) (n_dims mp);
                        Tanh])
             (range 0 (layers mp)).
Proof.
  unfold block_layers.
  assert (H : forall (l : list Z) (acc : list Layer),
             fold_left
               (fun layers0 _ =>
                  (layers0 ++ [MaskedWeight (n_dims mp * hidden_dim mp)
                                 (n_dims mp * hidden_dim mp) (n_dims mp)])
                    ++ [Tanh]) l acc
             = acc ++ flat_map
                 (fun _ => [MaskedWeight (n_dims mp * hidden_dim mp)
                              (n_dims mp * hidden_dim mp) (n_dims mp); Tanh])
                 l).
  { induction l as [|z l IH]; intros acc; cbn [fold_left flat_map].
    - now rewrite app_nil_r.
    - rewrite IH. list_eq. }
  apply (H _ []).
Qed.

Lemma output_width_hidden (mp : model_param) (l : list Z) (tl : list Layer) :
  output_width (n_dims mp * hidden_dim mp)
    (flat_map (fun _ => [MaskedWeight (n_dims mp * hidden_dim mp)
                           (n_dims mp * hidden_dim mp) (n_dims mp); Tanh]) l
     ++ tl)
  = output_width (n_dims mp * hidden_dim mp) tl.
Proof.
  induction l as [|z l IH]; [reflexivity|].
  cbn [flat_map app output_width]. now rewrite Z.eqb_refl.
Qed.

(** X13: the layers [create_model] hands to every [BNAF] fit together:
    fed the width [n_dims] they return the width [n_dims], each
    [MaskedWeight] taking the width the layer before it returns; there are
    [2 * layers + 3] of them (3 when [layers] is not positive), and every
    [MaskedWeight] gets [dim = n_dims]. *)
Theorem block_body_widths (mp : model_param) :
  output_width (n_dims mp) (block_body mp) = Some (n_dims mp)
  /\ List.length (block_body mp) = (2 * Z.to_nat (layers mp) + 3)%nat
  /\ Forall (layer_dim_is (n_dims mp)) (block_body mp).
Proof.
  unfold block_body. rewrite block_layers_flat. split; [|split].
  - cbn [app output_width]. rewrite Z.eqb_refl, output_width_hidden.
    cbn [output_width]. now rewrite Z.eqb_refl.
  - cbn [app List.length]. rewrite length_app. cbn [List.length].
    rewrite (flat_map_constant_length (c := 2%nat)) by reflexivity.
    rewrite range_length. lia.
  - repeat constructor. apply Forall_app. split; [|repeat constructor].
    apply Forall_flat_map, Forall_forall. intros z _. repeat constructor.
Qed.



(** ** train: runs that end early *)

(** X15: with [epochs <= 0] the loop over the epochs does not run: [train]
    returns without a call to the model, the optimizer or the scheduler,
    without a checkpoint, and with the parameters it was given. *)
Theorem train_no_epochs {C : Collaborators} (model : Params)
  (optimizer : OptState * Params) (scheduler : SchedState)
  (trn_x val_x : Tensor2) (trn_weights val_weights : option Tensor1)
  (p : param) (modeldir save_name : string) :
  (epochs p <= 0)%Z ->
  train model optimizer scheduler trn_x val_x trn_weights val_weights p
        modeldir save_name
  = (mkSt model (snd optimizer) (fst optimizer) scheduler [] [] None [] [],
     Ok tt).
Proof.
  intros H. unfold train. now rewrite range_empty by lia.
Qed.

(** A run of X15: no epochs. *)
Lemma train_no_epochs_witness :
  still_run (mkParam 3 0 (Fin 1) 2)
  = (mkSt (C := still) tt tt tt tt [] [] None [] [], Ok tt).
Proof.
  apply (train_no_epochs (C := still) tt (tt, tt) tt [[Fin 0]] [[Fin 0]]
           None None (mkParam 3 0 (Fin 1) 2) "checkpoint" "dbnf").
  cbn. lia.
Defined.



(** X17: with [evalmode = 0] and a first epoch index that is not 0, the test
    [epoch % evalmode] of the first epoch raises [ZeroDivisionError]: after
    the training batches and one [optimizer.swap()], with no loss logged
    and nothing saved. *)
Theorem train_zero_evalmode {C : Collaborators} (model : Params)
  (optimizer : OptState * Params) (scheduler : SchedState)
  (trn_x val_x : Tensor2) (trn_weights val_weights : option Tensor1)
  (p : param) (modeldir save_name : string) :
  (0 < epochs p)%Z ->
  evalmode p = 0%Z ->
  start_epoch p <> 0%Z ->
  weights_fit trn_weights trn_x ->
  trn_sampler (start_epoch p) <> [] ->
  in_range trn_x (trn_sampler (start_epoch p)) ->
  exists s,
    train model optimizer scheduler trn_x val_x trn_weights val_weights p
          modeldir save_name = (s, Err ZeroDivisionError)
    /\ trace s = ModelTrain (start_epoch p)
                   :: repeat OptimizerStep
                        (List.length (trn_sampler (start_epoch p)))
                   ++ [OptimizerSwap]
    /\ trn_losses s = []
    /\ val_losses s = []
    /\ saved s = [].
Proof.
  intros Hep Hem H0 Hfit Hne Hr. unfold train. rewrite range_cons by lia.
  cbn [epoch_loop]. unfold epoch_body.
  match goal with |- exists _, bind (bind (training_phase _ ?ts _) _) _ ?s0 = _ /\ _ =>
    destruct (training_phase_ok p ts (start_epoch p) s0)
      as (s1 & tl & Hrun & Htr & K1 & K2 & K3 & K4 & K5);
      cbn [X W]; try assumption; [now apply default_weights_fit|]
  end.
  exists s1. split.
  - apply bind_Err. rewrite (bind_Ok _ _ _ _ _ Hrun).
    apply bind_Err. unfold lift, validates. rewrite Hem.
    destruct (Z.eqb_spec (start_epoch p) 0); [contradiction|reflexivity].
  - cbn in Htr, K2, K3, K5. now rewrite Htr, K2, K3, K5.
Qed.

(** A run of X17: started at epoch 1 with [evalmode = 0]. *)
Lemma train_zero_evalmode_witness :
  exists s,
    still_run (mkParam 1 1 (Fin 1) 0) = (s, Err ZeroDivisionError)
    /\ trace s = [ModelTrain 1; OptimizerStep; OptimizerSwap]
    /\ trn_losses s = []
    /\ val_losses s = []
    /\ saved s = [].
Proof.
  apply (train_zero_evalmode (C := still) tt (tt, tt) tt [[Fin 0]] [[Fin 0]]
           None None (mkParam 1 1 (Fin 1) 0) "checkpoint" "dbnf").
  - reflexivity.
  - reflexivity.
  - discriminate.
  - exact I.
  - discriminate.
  - exact still_in_range.
Defined.

(** ** The names of the checkpoints *)

Lemma str_inj (a b : Z) : str a = str b -> a = b.
Proof.
  assert (H : forall n, NilZero.int_of_string (str n) = Some (Z.to_int n)).
  { intros n. unfold str. apply NilZero.isi; destruct n; cbn; try discriminate;
      intros [= E]; now apply DecimalPos.Unsigned.to_uint_nonnil in E. }
  intros E. apply DecimalZ.to_int_inj.
  pose proof (H a) as Ha. rewrite E, H in Ha. now injection Ha.
Qed.

Lemma append_inv_head (s a b : string) :
  (s ++ a)%string = (s ++ b)%string -> a = b.
Proof.
  induction s as [|c s IH]; cbn; [auto|]. intros [= E]. auto.
Qed.

Lemma append_length (a b : string) :
  String.length (a ++ b) = (String.length a + String.length b)%nat.
Proof.
  induction a as [|c a IH]; cbn; [reflexivity|]. now rewrite IH.
Qed.

Lemma append_inv_tail (a b t : string) :
  (a ++ t)%string = (b ++ t)%string -> a = b.
Proof.
  revert b. induction a as [|c a IH]; intros [|c' b] E; cbn in E.
  - reflexivity.
  - apply (f_equal String.length) in E. cbn in E.
    rewrite append_length in E. lia.
  - apply (f_equal String.length) in E. cbn in E.
    rewrite append_length in E. lia.
  - injection E as -> E. f_equal. now apply IH.
Qed.

(** The names of the checkpoints of two epochs differ. *)
Lemma checkpoint_name_inj (modeldir save_name : string) (e e' : Z) :
  checkpoint_name modeldir save_name e = checkpoint_name modeldir save_name e' ->
  e = e'.
Proof.
  unfold checkpoint_name. intros E.
  do 4 apply append_inv_head in E.
  apply append_inv_tail in E. now apply str_inj.
Qed.

Lemma range_nth (a b : Z) (k : nat) (e : Z) :
  nth_error (range a b) k = Some e -> e = (a + Z.of_nat k)%Z.
Proof.
  unfold range. rewrite nth_error_map.
  destruct (nth_error (seq 0 (Z.to_nat (b - a))) k) as [i|] eqn:E;
    cbn [option_map]; [|discriminate].
  intros [= <-]. apply nth_error_In in E as Hin.
  assert (Hk : (k < List.length (seq 0 (Z.to_nat (b - a))))%nat)
    by (apply nth_error_Some; congruence).
  rewrite length_seq in Hk.
  rewrite (nth_error_nth' _ 0%nat) in E by now rewrite length_seq.
  rewrite seq_nth in E by exact Hk. injection E as <-. reflexivity.
Qed.

Lemma range_NoDup (a b : Z) : NoDup (range a b).
Proof.
  unfold range. apply Finite.Injective_map_NoDup; [|apply seq_NoDup].
  intros i j H. lia.
Qed.

Lemma NoDup_prefix {A : Type} (l l' : list A) : NoDup (l ++ l') -> NoDup l.
Proof.
  induction l as [|a l IH]; cbn; [constructor|].
  intros H. inversion H as [|? ? Hin Hnd]; subst. constructor.
  - intros Hin'. apply Hin, in_or_app. now left.
  - now apply IH.
Qed.

(** ** train: runs that go through *)

Lemma firstn_prefix {A : Type} (l r : list A) (n : nat) :
  n = List.length l -> firstn n (l ++ r) = l.
Proof.
  intros ->. now rewrite firstn_app, Nat.sub_diag, firstn_all, firstn_O, app_nil_r.
Qed.

(** The histories only grow, and the checkpoint of each epoch holds them as
    they are at the end of that epoch. *)
Lemma epochs_run_histories {C : Collaborators} (p : param)
  (modeldir save_name : string) (done : list Z) (s s' : St) :
  epochs_run p modeldir save_name done s s' ->
  exists new tl vl,
    saved s' = saved s ++ new
    /\ trn_losses s' = trn_losses s ++ tl
    /\ val_losses s' = val_losses s ++ vl
    /\ List.length tl = List.length done
    /\ List.length vl = List.length done
    /\ forall k name ck,
        nth_error new k = Some (name, ck) ->
        exists e,
          nth_error done k = Some e
          /\ name = checkpoint_name modeldir save_name e
          /\ ck_epoch ck = e
          /\ ck_trn_losses ck
             = firstn (List.length (trn_losses s) + S k) (trn_losses s')
          /\ ck_val_losses ck
             = firstn (List.length (val_losses s) + S k) (val_losses s').
Proof.
  induction 1 as [s|e rest s s1 s2 Hstep _ IH].
  - exists [], [], []. rewrite !app_nil_r. repeat split.
    intros [|k] name ck; discriminate.
  - destruct IH as (new & tl & vl & Hsv & Htl & Hvl & Hlt & Hlv & Hck).
    destruct Hstep as (_ & (t0 & Ht0) & (v0 & Hv0 & _) & Hsv0).
    eexists (_ :: new), (t0 :: tl), (v0 :: vl).
    rewrite Hsv, Htl, Hvl, Hsv0, Ht0, Hv0.
    split; [list_eq|]. split; [list_eq|]. split; [list_eq|].
    split; [cbn; now rewrite Hlt|]. split; [cbn; now rewrite Hlv|].
    intros [|k] name ck; cbn [nth_error].
    + intros [= <- <-]. exists e. cbn [ck_epoch ck_trn_losses ck_val_losses].
      repeat split.
      * symmetry. apply firstn_prefix. now rewrite length_app.
      * symmetry. apply firstn_prefix. now rewrite length_app.
    + intros Hk. destruct (Hck k name ck Hk) as (e' & H1 & H2 & H3 & H4 & H5).
      exists e'. repeat split; try assumption.
      * rewrite H4, Htl, Ht0. f_equal. rewrite length_app. cbn. lia.
      * rewrite H5, Hvl, Hv0. f_equal. rewrite length_app. cbn. lia.
Qed.

Lemma prefix_nth {A : Type} (l l' : list A) (k : nat) (a : A) :
  nth_error l k = Some a -> nth_error (l ++ l') k = Some a.
Proof.
  intros H. rewrite nth_error_app1; [exact H|].
  apply nth_error_Some. congruence.
Qed.

(** X18: in a run whose first epoch validates and whose loaders are in
    order, the checkpoint at position [k] is named after the epoch
    [start_epoch + k], holds that epoch index, and holds the first [k + 1]
    entries of the two loss histories the run ends with: the histories only
    grow, by one entry per epoch. *)
Theorem train_checkpoint_histories {C : Collaborators} (model : Params)
  (optimizer : OptState * Params) (scheduler : SchedState)
  (trn_x val_x : Tensor2) (trn_weights val_weights : option Tensor1)
  (p : param) (modeldir save_name : string) :
  weights_fit trn_weights trn_x ->
  weights_fit val_weights val_x ->
  loaders_ok trn_x val_x ->
  evalmode p <> 0%Z ->
  validated (start_epoch p) (evalmode p) = true ->
  exists s,
    train model optimizer scheduler trn_x val_x trn_weights val_weights p
          modeldir save_name = (s, Ok tt)
    /\ List.length (trn_losses s) = List.length (saved s)
    /\ List.length (val_losses s) = List.length (saved s)
    /\ forall k name ck,
        nth_error (saved s) k = Some (name, ck) ->
        name = checkpoint_name modeldir save_name (start_epoch p + Z.of_nat k)
        /\ ck_epoch ck = (start_epoch p + Z.of_nat k)%Z
        /\ ck_trn_losses ck = firstn (S k) (trn_losses s)
        /\ ck_val_losses ck = firstn (S k) (val_losses s).
Proof.
  intros Ht Hv Hl Hem H0.
  destruct (train_ok model optimizer scheduler trn_x val_x trn_weights
              val_weights p modeldir save_name Ht Hv Hl Hem H0)
    as (s & done & rest & Hrun & Hsplit & Hruns & _).
  exists s. split; [exact Hrun|].
  pose proof (epochs_run_checkpoints _ _ _ _ _ _ Hruns) as (Hn & _ & H3 & H4).
  apply (f_equal (@List.length _)) in Hn. rewrite !length_map in Hn.
  cbn in Hn, H3, H4. rewrite ?length_map in Hn.
  destruct (epochs_run_histories _ _ _ _ _ _ Hruns)
    as (new & tl & vl & Hsv & _ & _ & _ & _ & Hck).
  cbn [saved trn_losses val_losses app List.length Nat.add] in Hsv, Hck.
  split; [lia|]. split; [lia|].
  intros k name ck Hk. rewrite Hsv in Hk.
  destruct (Hck k name ck Hk) as (e & He & -> & -> & H5 & H6).
  apply (prefix_nth _ rest) in He. rewrite <- Hsplit in He.
  apply range_nth in He. subst e. now repeat split.
Qed.

(** A run of X18: the example run with three epochs. *)
Lemma train_checkpoint_histories_witness :
  exists s,
    still_run (mkParam 0 3 (Fin 1) 2) = (s, Ok tt)
    /\ List.length (trn_losses s) = List.length (saved s)
    /\ List.length (val_losses s) = List.length (saved s)
    /\ forall k name ck,
        nth_error (saved s) k = Some (name, ck) ->
        name = checkpoint_name "checkpoint" "dbnf" (0 + Z.of_nat k)
        /\ ck_epoch ck = (0 + Z.of_nat k)%Z
        /\ ck_trn_losses ck = firstn (S k) (trn_losses s)
        /\ ck_val_losses ck = firstn (S k) (val_losses s).
Proof.
  apply (train_checkpoint_histories (C := still) tt (tt, tt) tt [[Fin 0]]
           [[Fin 0]] None None (mkParam 0 3 (Fin 1) 2) "checkpoint" "dbnf"
           I I still_loaders_ok ltac:(discriminate) eq_refl).
Defined.

(** X19: in a run whose first epoch validates and whose loaders are in
    order, the names of the checkpoints are pairwise different: the run
    never overwrites one of its own checkpoints. *)
Theorem train_checkpoint_names_distinct {C : Collaborators} (model : Params)
  (optimizer : OptState * Params) (scheduler : SchedState)
  (trn_x val_x : Tensor2) (trn_weights val_weights : option Tensor1)
  (p : param) (modeldir save_name : string) :
  weights_fit trn_weights trn_x ->
  weights_fit val_weights val_x ->
  loaders_ok trn_x val_x ->
  evalmode p <> 0%Z ->
  validated (start_epoch p) (evalmode p) = true ->
  exists s,
    train model optimizer scheduler trn_x val_x trn_weights val_weights p
          modeldir save_name = (s, Ok tt)
    /\ NoDup (map fst (saved s)).
Proof.
  intros Ht Hv Hl Hem H0.
  destruct (train_ok model optimizer scheduler trn_x val_x trn_weights
              val_weights p modeldir save_name Ht Hv Hl Hem H0)
    as (s & done & rest & Hrun & Hsplit & Hruns & _).
  exists s. split; [exact Hrun|].
  pose proof (epochs_run_checkpoints _ _ _ _ _ _ Hruns) as (Hn & _).
  cbn [saved map app] in Hn. rewrite Hn.
  apply Finite.Injective_map_NoDup.
  - intros e e'. apply checkpoint_name_inj.
  - apply (NoDup_prefix done rest). rewrite <- Hsplit. apply range_NoDup.
Qed.

(** A run of X19: the example run with three epochs. *)
Lemma train_checkpoint_names_distinct_witness :
  exists s,
    still_run (mkParam 0 3 (Fin 1) 2) = (s, Ok tt)
    /\ NoDup (map fst (saved s)).
Proof.
  apply (train_checkpoint_names_distinct (C := still) tt (tt, tt) tt
           [[Fin 0]] [[Fin 0]] None None (mkParam 0 3 (Fin 1) 2)
           "checkpoint" "dbnf" I I still_loaders_ok ltac:(discriminate)
           eq_refl).
Defined.

(** X20: in a run whose first epoch validates, whose loaders are in order
    and whose scheduler never says stop, every epoch of
    [range(start_epoch, start_epoch + epochs)] runs to its end: [train]
    returns with one checkpoint per epoch, in the order of the epochs, and
    with one entry per epoch in each loss history. *)
Theorem train_all_epochs {C : Collaborators} (model : Params)
  (optimizer : OptState * Params) (scheduler : SchedState)
  (trn_x val_x : Tensor2) (trn_weights val_weights : option Tensor1)
  (p : param) (modeldir save_name : string) :
  weights_fit trn_weights trn_x ->
  weights_fit val_weights val_x ->
  loaders_ok trn_x val_x ->
  evalmode p <> 0%Z ->
  validated (start_epoch p) (evalmode p) = true ->
  (forall sc vl, snd (scheduler_step sc vl) = false) ->
  exists s,
    train model optimizer scheduler trn_x val_x trn_weights val_weights p
          modeldir save_name = (s, Ok tt)
    /\ map fst (saved s)
       = map (checkpoint_name modeldir save_name)
             (range (start_epoch p) (start_epoch p + epochs p))
    /\ List.length (saved s) = Z.to_nat (epochs p)
    /\ List.length (trn_losses s) = Z.to_nat (epochs p)
    /\ List.length (val_losses s) = Z.to_nat (epochs p).
Proof.
  intros Ht Hv Hl Hem H0 Hnever.
  destruct (train_ok model optimizer scheduler trn_x val_x trn_weights
              val_weights p modeldir save_name Ht Hv Hl Hem H0)
    as (s & done & rest & Hrun & Hsplit & Hruns & Hrest).
  rewrite (Hrest Hnever), app_nil_r in Hsplit. subst done.
  exists s. split; [exact Hrun|].
  pose proof (epochs_run_checkpoints _ _ _ _ _ _ Hruns) as (Hn & _ & H3 & H4).
  cbn [saved trn_losses val_losses map app List.length Nat.add] in Hn, H3, H4.
  rewrite range_length in H3, H4.
  replace (start_epoch p + epochs p - start_epoch p)%Z with (epochs p)
    in H3, H4 by lia.
  repeat split; try assumption.
  apply (f_equal (@List.length _)) in Hn.
  rewrite !length_map, range_length in Hn. rewrite Hn. f_equal. lia.
Qed.

(** A run of X20: the example run with three epochs. *)
Lemma train_all_epochs_witness :
  exists s,
    still_run (mkParam 0 3 (Fin 1) 2) = (s, Ok tt)
    /\ map fst (saved s)
       = map (checkpoint_name "checkpoint" "dbnf") (range 0 (0 + 3))
    /\ List.length (saved s) = 3%nat
    /\ List.length (trn_losses s) = 3%nat
    /\ List.length (val_losses s) = 3%nat.
Proof.
  apply (train_all_epochs (C := still) tt (tt, tt) tt [[Fin 0]] [[Fin 0]]
           None None (mkParam 0 3 (Fin 1) 2) "checkpoint" "dbnf" I I
           still_loaders_ok ltac:(discriminate) eq_refl
           (fun _ _ => eq_refl)).
Defined.

(** X21: with a scheduler that says stop at every step, [train] ends after
    its first epoch, and only after the checkpoint of that epoch is saved:
    one checkpoint, one entry in each loss history, and the calls of one
    epoch, however many epochs were asked for. *)
Theorem train_stops_after_checkpoint {C : Collaborators} (model : Params)
  (optimizer : OptState * Params) (scheduler : SchedState)
  (trn_x val_x : Tensor2) (trn_weights val_weights : option Tensor1)
  (p : param) (modeldir save_name : string) :
  weights_fit trn_weights trn_x ->
  weights_fit val_weights val_x ->
  loaders_ok trn_x val_x ->
  evalmode p <> 0%Z ->
  validated (start_epoch p) (evalmode p) = true ->
  (0 < epochs p)%Z ->
  (forall sc vl, snd (scheduler_step sc vl) = true) ->
  exists s,
    train model optimizer scheduler trn_x val_x trn_weights val_weights p
          modeldir save_name = (s, Ok tt)
    /\ trace s
       = epoch_calls (start_epoch p)
                     (List.length (trn_sampler (start_epoch p))) true
                     (checkpoint_name modeldir save_name (start_epoch p))
    /\ map fst (saved s)
       = [checkpoint_name modeldir save_name (start_epoch p)]
    /\ List.length (trn_losses s) = 1%nat
    /\ List.length (val_losses s) = 1%nat.
Proof.
  intros Ht Hv Hl Hem H0 Hep Hstop. unfold train.
  rewrite range_cons by lia. cbn [epoch_loop].
  match goal with |- exists _, bind (epoch_body _ ?ts ?vs _ _ _) _ ?s0 = _ /\ _ =>
    destruct (epoch_body_ok p ts vs modeldir save_name (start_epoch p) s0)
      as (s & stop & Hrun & Hstep & sc & vl & Hs);
      cbn [X W]; try assumption;
      try (now apply default_weights_fit); [congruence|]
  end.
  rewrite Hstop in Hs. subst stop.
  exists s. rewrite (bind_Ok _ _ _ _ _ Hrun). split; [reflexivity|].
  destruct Hstep as (Htr & (t0 & Ht0) & (v0 & Hv0 & _) & Hsv).
  cbn [trace trn_losses val_losses saved app] in Htr, Ht0, Hv0, Hsv.
  rewrite H0 in Htr. rewrite Htr, Hsv, Ht0, Hv0. now repeat split.
Qed.

(** A run of X21: a scheduler that says stop at every step, three epochs
    asked for. *)
Lemma train_stops_after_checkpoint_witness :
  exists s,
    train (C := stopping) tt (tt, tt) tt [[Fin 0]] [[Fin 0]] None None
          (mkParam 0 3 (Fin 1) 1) "checkpoint" "dbnf" = (s, Ok tt)
    /\ trace s = epoch_calls 0 1 true (checkpoint_name "checkpoint" "dbnf" 0)
    /\ map fst (saved s) = [checkpoint_name "checkpoint" "dbnf" 0]
    /\ List.length (trn_losses s) = 1%nat
    /\ List.length (val_losses s) = 1%nat.
Proof.
  apply (train_stops_after_checkpoint (C := stopping) tt (tt, tt) tt
           [[Fin 0]] [[Fin 0]] None None (mkParam 0 3 (Fin 1) 1)
           "checkpoint" "dbnf" I I).
  - intros epoch. cbn. repeat split; try discriminate; exact still_in_range.
  - discriminate.
  - reflexivity.
  - reflexivity.
  - reflexivity.
Defined.

(** ** train: the live view *)

Lemma views_at_train_app (v : View) (tr tr' : list Event) :
  views_at_train v (tr ++ tr')
  = views_at_train v tr
    ++ views_at_train
         (fold_left (fun v ev => if is_swap ev then toggle v else v) tr v) tr'.
Proof.
  revert v. induction tr as [|ev tr IH]; intros v; [reflexivity|].
  destruct ev; cbn [app views_at_train fold_left is_swap]; rewrite IH;
    reflexivity.
Qed.

Lemma views_at_train_steps (v : View) (n : nat) (tr : list Event) :
  views_at_train v (repeat OptimizerStep n ++ tr) = views_at_train v tr.
Proof.
  induction n as [|n IH]; [reflexivity|exact IH].
Qed.

Lemma fold_toggle_steps (v : View) (n : nat) (tr : list Event) :
  fold_left (fun v ev => if is_swap ev then toggle v else v)
            (repeat OptimizerStep n ++ tr) v
  = fold_left (fun v ev => if is_swap ev then toggle v else v) tr v.
Proof.
  induction n as [|n IH]; [reflexivity|exact IH].
Qed.

(** Epochs that all validate leave the live view as they find it. *)
Lemma epochs_run_validated {C : Collaborators} (p : param)
  (modeldir save_name : string) (done : list Z) (s s' : St) :
  epochs_run p modeldir save_name done s s' ->
  Forall (fun e => validated e (evalmode p) = true) done ->
  views_at_train RAW (trace s')
  = views_at_train RAW (trace s)
    ++ map (fun e => (e, view_after (trace s))) done
  /\ view_after (trace s') = view_after (trace s)
  /\ count_swaps (trace s')
     = (count_swaps (trace s) + 2 * List.length done)%nat.
Proof.
  induction 1 as [s|e rest s s1 s2 Hstep _ IH]; intros Hval.
  - cbn. rewrite app_nil_r. repeat split. lia.
  - inversion Hval as [|? ? He Hrest]; subst.
    destruct (IH Hrest) as (IH1 & IH2 & IH3).
    destruct (epoch_step_swaps _ _ _ _ _ _ Hstep) as [Hc Hv].
    rewrite He in Hc, Hv. destruct Hstep as (Htr & _). rewrite He in Htr.
    rewrite IH1, IH2, IH3, Hc, Hv. split; [|split; [reflexivity|cbn; lia]].
    rewrite Htr, views_at_train_app. fold (view_after (trace s)).
    unfold epoch_calls. cbn [views_at_train map].
    rewrite views_at_train_steps. cbn [views_at_train app].
    now rewrite <- app_assoc.
Qed.

(** X22: with [evalmode = 1] every epoch validates, every epoch makes its
    two swaps, and the raw parameters are live at the start of the training
    phase of every epoch and when [train] returns. *)
Theorem train_validating_every_epoch {C : Collaborators} (model : Params)
  (optimizer : OptState * Params) (scheduler : SchedState)
  (trn_x val_x : Tensor2) (trn_weights val_weights : option Tensor1)
  (p : param) (modeldir save_name : string) :
  weights_fit trn_weights trn_x ->
  weights_fit val_weights val_x ->
  loaders_ok trn_x val_x ->
  evalmode p = 1%Z ->
  exists s,
    train model optimizer scheduler trn_x val_x trn_weights val_weights p
          modeldir save_name = (s, Ok tt)
    /\ Forall (fun ev => snd ev = RAW) (views_at_train RAW (trace s))
    /\ List.length (views_at_train RAW (trace s)) = List.length (saved s)
    /\ count_swaps (trace s) = (2 * List.length (saved s))%nat
    /\ view_after (trace s) = RAW.
Proof.
  intros Ht Hv Hl Hem.
  assert (Hall : forall e, validated e (evalmode p) = true).
  { intros e. unfold validated. rewrite Hem, Z.mod_1_r. apply orb_true_r. }
  destruct (train_ok model optimizer scheduler trn_x val_x trn_weights
              val_weights p modeldir save_name Ht Hv Hl
              ltac:(rewrite Hem; discriminate) (Hall _))
    as (s & done & rest & Hrun & _ & Hruns & _).
  exists s. split; [exact Hrun|].
  pose proof (epochs_run_checkpoints _ _ _ _ _ _ Hruns) as (Hn & _).
  apply (f_equal (@List.length _)) in Hn. cbn in Hn.
  rewrite !length_map in Hn.
  destruct (epochs_run_validated _ _ _ _ _ _ Hruns) as (H1 & H2 & H3).
  { apply Forall_forall. intros e _. apply Hall. }
  cbn [trace views_at_train app] in H1, H2, H3.
  rewrite H1, H2, H3, Hn, length_map. repeat split.
  apply Forall_map, Forall_forall. now intros e _.
Qed.

(** A run of X22: the example run with a validation in every epoch. *)
Lemma train_validating_every_epoch_witness :
  exists s,
    still_run (mkParam 0 3 (Fin 1) 1) = (s, Ok tt)
    /\ Forall (fun ev => snd ev = RAW) (views_at_train RAW (trace s))
    /\ List.length (views_at_train RAW (trace s)) = List.length (saved s)
    /\ count_swaps (trace s) = (2 * List.length (saved s))%nat
    /\ view_after (trace s) = RAW.
Proof.
  apply (train_validating_every_epoch (C := still) tt (tt, tt) tt [[Fin 0]]
           [[Fin 0]] None None (mkParam 0 3 (Fin 1) 1) "checkpoint" "dbnf"
           I I still_loaders_ok eq_refl).
Defined.

(** ** train: which parameters a checkpoint holds *)

Section Snapshots.

Context {C : Collaborators}.

Local Open Scope train_scope.

Lemma bind_inv {A B : Type} (m : M A) (k : A -> M B) (s s' : St) (b : B) :
  bind m k s = (s', Ok b) ->
  exists s1 a, m s = (s1, Ok a) /\ k a s1 = (s', Ok b).
Proof.
  unfold bind. destruct (m s) as [s1 [a|e]]; [eauto|discriminate].
Qed.

Lemma training_batches_params (d : Dataset) (max_norm : num)
  (loader : list (list nat)) :
  forall (acc : list num) (s s' : St) (r : list num),
    training_batches d max_norm loader acc s = (s', Ok r) ->
    (live s', shadow s', opt s')
    = updates d max_norm loader (live s, shadow s, opt s)
    /\ saved s' = saved s.
Proof.
  induction loader as [|index loader IH]; intros acc s s' r;
    cbn [training_batches updates].
  - now intros [= <- _].
  - intros H. apply bind_inv in H as (s1 & [x w] & H1 & H).
    unfold lift in H1. injection H1 as <- H1. rewrite H1.
    apply bind_inv in H as (s2 & loss & H2 & H).
    unfold loss_of in H2. injection H2 as <- _.
    apply bind_inv in H as (s3 & [] & H3 & H).
    apply IH in H as [H Hsv]. rewrite H, Hsv.
    unfold optimizer_step, emit, modify, bind in H3. cbn [fst snd] in H3.
    destruct (optimizer_update max_norm x w (live s, shadow s, opt s))
      as [[l sh] o].
    injection H3 as <-. split; reflexivity.
Qed.

Lemma validation_batches_state (d : Dataset) (loader : list (list nat)) :
  forall (acc : list num) (s s' : St) (r : list num),
    validation_batches d loader acc s = (s', Ok r) -> s' = s.
Proof.
  induction loader as [|index loader IH]; intros acc s s' r;
    cbn [validation_batches].
  - now intros [= <- _].
  - intros H. apply bind_inv in H as (s1 & [x w] & H1 & H).
    unfold lift in H1. injection H1 as <- _.
    apply bind_inv in H as (s2 & loss & H2 & H).
    unfold loss_of in H2. injection H2 as <- _.
    now apply IH in H.
Qed.

Lemma training_phase_params (p : param) (d : Dataset) (epoch : Z)
  (s s' : St) (train_loss : num) :
  training_phase p d epoch s = (s', Ok train_loss) ->
  (shadow s', live s', opt s')
  = updates d (clip_norm p) (trn_sampler epoch) (live s, shadow s, opt s)
  /\ saved s' = saved s.
Proof.
  unfold training_phase. intros H.
  apply bind_inv in H as (s1 & [] & H1 & H).
  unfold emit, modify in H1. injection H1 as <-.
  apply bind_inv in H as (s2 & losses & H2 & H).
  apply training_batches_params in H2 as [Hp Hsv].
  cbn [live shadow opt saved] in Hp, Hsv.
  apply bind_inv in H as (s3 & tl & H3 & H).
  unfold lift in H3. injection H3 as <- _.
  unfold optimizer_swap, emit, modify, ret, bind in H.
  injection H as <- _. cbn [live shadow opt saved].
  rewrite <- Hp, Hsv. split; reflexivity.
Qed.

Lemma validation_phase_params (d : Dataset) (epoch : Z) (s s' : St) :
  validation_phase d epoch s = (s', Ok tt) ->
  live s' = shadow s /\ shadow s' = live s /\ opt s' = opt s
  /\ saved s' = saved s.
Proof.
  unfold validation_phase. intros H.
  apply bind_inv in H as (s1 & [] & H1 & H).
  unfold emit, modify in H1. injection H1 as <-.
  apply bind_inv in H as (s2 & losses & H2 & H).
  apply validation_batches_state in H2. subst s2.
  apply bind_inv in H as (s3 & v & H3 & H).
  unfold lift in H3. injection H3 as <- _.
  unfold optimizer_swap, emit, modify, bind in H.
  injection H as <-. now repeat split.
Qed.

Lemma checkpoint_phase_params (modeldir save_name : string) (epoch : Z)
  (train_loss : num) (s s' : St) (stop : bool) :
  checkpoint_phase modeldir save_name epoch train_loss s = (s', Ok stop) ->
  live s' = live s /\ shadow s' = shadow s
  /\ exists ck,
      saved s' = saved s ++ [(checkpoint_name modeldir save_name epoch, ck)]
      /\ ck_model ck = live s
      /\ snd (ck_optimizer ck) = shadow s
      /\ ck_epoch ck = epoch.
Proof.
  unfold checkpoint_phase, append_trn_loss, append_val_loss,
    read_validation_loss, scheduler_call, save_torch_model, emit, modify, ret,
    bind.
  cbn. destruct (validation_loss s) as [vl|]; [|discriminate]. cbn.
  destruct (scheduler_step (sched s, opt s) vl) as [[sc o] st].
  intros [= <- _]. cbn. repeat split. eexists. repeat split.
Qed.

(** X23: which parameters the checkpoint of an epoch holds.  Let [raw] be
    the parameters the optimizer steps of the epoch leave live and [other]
    the second snapshot they leave.  In an epoch that runs to its end with
    a validation, the checkpoint holds [raw] as the model and [other] with
    the optimizer, and the next epoch trains on [raw]; in an epoch without
    validation it holds [other] as the model and [raw] with the optimizer,
    and the next epoch trains on [other]. *)
Theorem epoch_checkpoint_snapshot (p : param) (ts vs : Dataset)
  (modeldir save_name : string) (epoch : Z) (s s' : St) (stop : bool) :
  epoch_body p ts vs modeldir save_name epoch s = (s', Ok stop) ->
  let u := updates ts (clip_norm p) (trn_sampler epoch)
                   (live s, shadow s, opt s) in
  let raw := fst (fst u) in
  let other := snd (fst u) in
  exists v ck,
    validates epoch (evalmode p) = Ok v
    /\ saved s' = saved s ++ [(checkpoint_name modeldir save_name epoch, ck)]
    /\ ck_model ck = (if v : bool then raw else other)
    /\ snd (ck_optimizer ck) = (if v : bool then other else raw)
    /\ live s' = ck_model ck
    /\ shadow s' = snd (ck_optimizer ck).
Proof.
  intros H u raw other. unfold epoch_body in H.
  apply bind_inv in H as (s1 & tl & H1 & H).
  apply training_phase_params in H1 as [Hp Hsv1]. fold u in Hp.
  apply bind_inv in H as (s2 & v & H2 & H).
  unfold lift in H2. injection H2 as <- Hv.
  apply bind_inv in H as (s3 & [] & H3 & H).
  apply checkpoint_phase_params in H as (Hl & Hs & ck & Hsv & Hm & Ho & _).
  exists v, ck. split; [exact Hv|].
  assert (Hraw : shadow s1 = raw) by (subst raw; now rewrite <- Hp).
  assert (Hother : live s1 = other) by (subst other; now rewrite <- Hp).
  destruct v.
  - apply validation_phase_params in H3 as (V1 & V2 & _ & V4).
    rewrite Hsv, V4, Hsv1, Hm, Ho, Hl, Hs, V1, V2, Hraw, Hother.
    now repeat split.
  - unfold ret in H3. injection H3 as <-.
    rewrite Hsv, Hsv1, Hm, Ho, Hl, Hs, Hraw, Hother. now repeat split.
Qed.

End Snapshots.

Lemma counting_in_range : in_range [[Fin 0]] [[0%nat]; [0%nat]].
Proof.
  repeat constructor.
Qed.

(** A run of X23: parameters that count the optimizer steps, started at 0
    with the second snapshot at 100; epoch 1 makes two steps and skips the
    validation, and its checkpoint holds 100 as the model. *)
Lemma epoch_checkpoint_snapshot_witness :
  exists s' stop ck,
    epoch_body (C := counting) (mkParam 1 1 (Fin 1) 2)
               (mkDataset [[Fin 0]] [Fin 1]) (mkDataset [[Fin 0]] [Fin 1])
               "checkpoint" "dbnf" 1
               (mkSt (C := counting) 0%Z 100%Z tt tt [] [] (Some (Fin 0)) [] [])
    = (s', Ok stop)
    /\ saved s' = [(checkpoint_name "checkpoint" "dbnf" 1, ck)]
    /\ ck_model ck = 100%Z
    /\ snd (ck_optimizer ck) = 2%Z.
Proof.
  destruct (epoch_body_ok (C := counting) (mkParam 1 1 (Fin 1) 2)
              (mkDataset [[Fin 0]] [Fin 1]) (mkDataset [[Fin 0]] [Fin 1])
              "checkpoint" "dbnf" 1
              (mkSt (C := counting) 0%Z 100%Z tt tt [] [] (Some (Fin 0)) [] [])
              eq_refl eq_refl)
    as (s' & stop & Hrun & _).
  - intros epoch. cbn. repeat split; try discriminate.
    + exact counting_in_range.
    + exact still_in_range.
  - discriminate.
  - discriminate.
  - destruct (epoch_checkpoint_snapshot (C := counting) _ _ _ _ _ _ _ _ _ Hrun)
      as (v & ck & Hv & Hsv & Hm & Ho & _).
    injection Hv as <-. exists s', stop, ck. repeat split; assumption.
Defined.

(** ** train: evalmode = 0 *)

(** An epoch whose test for a validation gives true runs to its end when
    its two loaders are in order. *)
Lemma epoch_body_validating {C : Collaborators} (p : param) (ts vs : Dataset)
  (modeldir save_name : string) (epoch : Z) (s : St) :
  List.length (W ts) = List.length (X ts) ->
  List.length (W vs) = List.length (X vs) ->
  trn_sampler epoch <> [] ->
  in_range (X ts) (trn_sampler epoch) ->
  val_sampler epoch <> [] ->
  in_range (X vs) (val_sampler epoch) ->
  validates epoch (evalmode p) = Ok true ->
  exists s' stop,
    epoch_body p ts vs modeldir save_name epoch s = (s', Ok stop)
    /\ trace s'
       = trace s ++ epoch_calls epoch (List.length (trn_sampler epoch)) true
                                (checkpoint_name modeldir save_name epoch)
    /\ map fst (saved s')
       = map fst (saved s) ++ [checkpoint_name modeldir save_name epoch]
    /\ List.length (trn_losses s') = S (List.length (trn_losses s))
    /\ List.length (val_losses s') = S (List.length (val_losses s))
    /\ exists sc vl, stop = snd (scheduler_step sc vl).
Proof.
  intros HWt HWv Hne Hr Hvne Hvr Hval.
  destruct (training_phase_ok p ts epoch s HWt Hr Hne)
    as (s1 & tl & Hrun1 & Htr1 & K1 & K2 & K3 & K4 & K5).
  unfold epoch_body. rewrite (bind_Ok _ _ _ _ _ Hrun1).
  unfold lift at 1. rewrite (bind_Ok _ _ s1 s1 true) by now rewrite Hval.
  destruct (validation_phase_ok vs epoch s1 HWv Hvr Hvne)
    as (s2 & vl & Hrun2 & Htr2 & Hv2 & L1 & L2 & L3 & L4).
  rewrite (bind_Ok _ _ _ _ _ Hrun2).
  destruct (checkpoint_phase_bound modeldir save_name epoch tl s2 vl Hv2)
    as (s3 & stop & Hrun3 & Hstop & Htr3 & M1 & M2 & M3 & M4).
  exists s3, stop. split; [exact Hrun3|].
  split; [rewrite Htr3, Htr2, Htr1; unfold epoch_calls; list_eq|].
  split; [rewrite M4, L4, K5, map_app; reflexivity|].
  split; [rewrite M1, L2, K2, length_app; cbn; lia|].
  split; [rewrite M2, L3, K3, length_app; cbn; lia|].
  eauto.
Qed.

(** With [evalmode = 0], an epoch other than epoch 0 ends in the test for a
    validation. *)
Lemma epoch_body_zero_division {C : Collaborators} (p : param) (ts vs : Dataset)
  (modeldir save_name : string) (epoch : Z) (s : St) :
  List.length (W ts) = List.length (X ts) ->
  trn_sampler epoch <> [] ->
  in_range (X ts) (trn_sampler epoch) ->
  evalmode p = 0%Z ->
  epoch <> 0%Z ->
  exists s',
    epoch_body p ts vs modeldir save_name epoch s = (s', Err ZeroDivisionError)
    /\ trace s' = trace s ++ ModelTrain epoch
                    :: repeat OptimizerStep (List.length (trn_sampler epoch))
                    ++ [OptimizerSwap]
    /\ trn_losses s' = trn_losses s
    /\ val_losses s' = val_losses s
    /\ saved s' = saved s.
Proof.
  intros HWt Hne Hr Hem He.
  destruct (training_phase_ok p ts epoch s HWt Hr Hne)
    as (s1 & tl & Hrun1 & Htr1 & K1 & K2 & K3 & K4 & K5).
  exists s1. split; [|now repeat split].
  unfold epoch_body. rewrite (bind_Ok _ _ _ _ _ Hrun1).
  apply bind_Err. unfold lift, validates. rewrite Hem.
  destruct (Z.eqb_spec epoch 0); [contradiction|reflexivity].
Qed.

(** X24: with [evalmode = 0], a run that starts at epoch 0 with a scheduler
    that never says stop runs epoch 0 to its end, validation and checkpoint
    included (for epoch 0 the test [epoch == 0 or ...] does not reach the
    division), and ends in [ZeroDivisionError] in epoch 1, after its
    training batches and one [optimizer.swap()]. *)
Theorem train_zero_evalmode_second_epoch {C : Collaborators} (model : Params)
  (optimizer : OptState * Params) (scheduler : SchedState)
  (trn_x val_x : Tensor2) (trn_weights val_weights : option Tensor1)
  (p : param) (modeldir save_name : string) :
  start_epoch p = 0%Z ->
  evalmode p = 0%Z ->
  (2 <= epochs p)%Z ->
  weights_fit trn_weights trn_x ->
  weights_fit val_weights val_x ->
  loaders_ok trn_x val_x ->
  (forall sc vl, snd (scheduler_step sc vl) = false) ->
  exists s,
    train model optimizer scheduler trn_x val_x trn_weights val_weights p
          modeldir save_name = (s, Err ZeroDivisionError)
    /\ trace s
       = epoch_calls 0 (List.length (trn_sampler 0)) true
                     (checkpoint_name modeldir save_name 0)
         ++ ModelTrain 1 :: repeat OptimizerStep (List.length (trn_sampler 1))
         ++ [OptimizerSwap]
    /\ map fst (saved s) = [checkpoint_name modeldir save_name 0]
    /\ List.length (trn_losses s) = 1%nat
    /\ List.length (val_losses s) = 1%nat.
Proof.
  intros Hst Hem Hep Ht Hv Hl Hnever. unfold train. rewrite Hst.
  rewrite range_cons by lia. rewrite range_cons by lia.
  cbn [epoch_loop Z.add].
  destruct (Hl 0%Z) as (Hne0 & Hr0 & Hvne0 & Hvr0).
  destruct (Hl 1%Z) as (Hne1 & Hr1 & _).
  match goal with |- exists _, bind (epoch_body _ ?ts ?vs _ _ _) _ ?s0 = _ /\ _ =>
    destruct (epoch_body_validating p ts vs modeldir save_name 0 s0)
      as (s1 & stop & Hrun & Htr & Hsv & Htl & Hvl & sc & vl & Hs);
      cbn [X W]; try assumption; try (now apply default_weights_fit);
      [reflexivity|];
    destruct (epoch_body_zero_division p ts vs modeldir save_name 1 s1)
      as (s2 & Hrun2 & Htr2 & Htl2 & Hvl2 & Hsv2);
      cbn [X W]; try assumption; try (now apply default_weights_fit);
      [discriminate|]
  end.
  rewrite Hnever in Hs. subst stop.
  exists s2. rewrite (bind_Ok _ _ _ _ _ Hrun). rewrite (bind_Err _ _ _ _ _ Hrun2).
  split; [reflexivity|].
  cbn [trace saved trn_losses val_losses map app List.length]
    in Htr, Hsv, Htl, Hvl.
  now rewrite Htr2, Htr, Hsv2, Hsv, Htl2, Htl, Hvl2, Hvl.
Qed.

(** A run of X24: the example run with [evalmode = 0] and three epochs. *)
Lemma train_zero_evalmode_second_epoch_witness :
  exists s,
    still_run (mkParam 0 3 (Fin 1) 0) = (s, Err ZeroDivisionError)
    /\ trace s
       = epoch_calls 0 1 true (checkpoint_name "checkpoint" "dbnf" 0)
         ++ [ModelTrain 1; OptimizerStep; OptimizerSwap]
    /\ map fst (saved s) = [checkpoint_name "checkpoint" "dbnf" 0]
    /\ List.length (trn_losses s) = 1%nat
    /\ List.length (val_losses s) = 1%nat.
Proof.
  apply (train_zero_evalmode_second_epoch (C := still) tt (tt, tt) tt
           [[Fin 0]] [[Fin 0]] None None (mkParam 0 3 (Fin 1) 0)
           "checkpoint" "dbnf" eq_refl eq_refl ltac:(cbn; lia) I I
           still_loaders_ok (fun _ _ => eq_refl)).
Defined.

(** ** load_models *)

Section LoadingFacts.

Context {C : Collaborators} {H : Helpers}.

(** [param] as the loop leaves it. *)
Lemma load_loop_param (files : list (string * Checkpoint)) (modeldir : string)
  (modelnames : list string) :
  forall (prm : load_param) (models : list Loaded) (device : string),
    fst (load_loop files modeldir modelnames prm models device)
    = mkLoadParam (model_param_of prm)
                  (match modelnames with
                   | [] => opt_start_epoch prm
                   | _ :: _ => 0%Z
                   end)
                  (readmode prm).
Proof.
  induction modelnames as [|name rest IH]; intros prm models device;
    cbn [load_loop].
  - now destruct prm.
  - cbn [readmode model_param_of].
    destruct (torch_load files _) as [checkpoint|]; [|reflexivity].
    destruct (fits _ _); [|reflexivity].
    rewrite IH. cbn [model_param_of opt_start_epoch readmode].
    now destruct rest.
Qed.


Lemma iter_succ_r {A : Type} (f : A -> A) (n : nat) (a : A) :
  Nat.iter n f (f a) = Nat.iter (S n) f a.
Proof.
  symmetry. apply Nat.iter_succ_r.
Qed.

Lemma load_loop_ok (files : list (string * Checkpoint)) (modeldir : string)
  (mp : model_param) (rm : Z) (modelnames : list string) :
  forall (prm : load_param) (models : list Loaded) (device : string),
    model_param_of prm = mp ->
    readmode prm = rm ->
    Forall (fun name =>
              loadable files prm (create_model_filename modeldir name rm ".pth"))
           modelnames ->
    exists new,
      snd (load_loop files modeldir modelnames prm models device)
      = inr (models ++ new,
             Nat.iter (List.length modelnames) model_to_cuda device)
      /\ List.length new = List.length modelnames
      /\ forall k name,
          nth_error modelnames k = Some name ->
          exists checkpoint,
            torch_load files (create_model_filename modeldir name rm ".pth")
            = Some checkpoint
            /\ nth_error new k
               = Some (mkLoaded (create_model mp) (ck_model checkpoint)
                                (Nat.iter (S k) model_to_cuda device) false).
Proof.
  induction modelnames as [|name rest IH]; intros prm models device Hmp Hrm Hall.
  - exists []. cbn. rewrite app_nil_r. repeat split.
    intros [|k] name; discriminate.
  - inversion Hall as [|? ? (checkpoint & Hload & Hfit) Hrest]; subst.
    cbn [load_loop readmode model_param_of]. rewrite Hload, Hfit.
    destruct (IH (mkLoadParam (model_param_of prm) 0 (readmode prm))
                 (models ++ [mkLoaded (create_model (model_param_of prm))
                                      (ck_model checkpoint)
                                      (model_to_cuda device) false])
                 (model_to_cuda device) eq_refl eq_refl)
        as (new & Hrun & Hlen & Hnth); [exact Hrest|].
    eexists (_ :: new). rewrite Hrun, <- app_assoc.
    rewrite (iter_succ_r model_to_cuda).
    split; [reflexivity|]. split; [cbn; now rewrite Hlen|].
    intros [|k] name'; cbn [nth_error].
    + intros [= <-]. exists checkpoint. now split.
    + intros Hk. destruct (Hnth k name' Hk) as (ck & H1 & H2).
      exists ck. split; [exact H1|].
      now rewrite H2, (iter_succ_r model_to_cuda).
Qed.


Lemma load_loop_stops (files : list (string * Checkpoint)) (modeldir : string)
  (mp : model_param) (rm : Z) (bad : string) (rest good : list string) :
  forall (prm : load_param) (models : list Loaded) (device : string),
    model_param_of prm = mp ->
    readmode prm = rm ->
    Forall (fun name =>
              loadable files prm (create_model_filename modeldir name rm ".pth"))
           good ->
    ~ loadable files prm (create_model_filename modeldir bad rm ".pth") ->
    snd (load_loop files modeldir (good ++ bad :: rest) prm models device)
    = inl (match torch_load files
                   (create_model_filename modeldir bad rm ".pth") with
           | None =>
               FileNotFoundError
                 (create_model_filename modeldir bad rm ".pth")
           | Some _ =>
               StateDictError (create_model_filename modeldir bad rm ".pth")
           end).
Proof.
  induction good as [|name good IH]; intros prm models device Hmp Hrm Hall Hbad.
  - cbn [app load_loop readmode model_param_of]. subst mp rm.
    destruct (torch_load files _) as [checkpoint|] eqn:E; [|reflexivity].
    destruct (fits _ _) eqn:F; [|reflexivity].
    exfalso. apply Hbad. exists checkpoint. now split.
  - inversion Hall as [|? ? (checkpoint & Hload & Hfit) Hrest]; subst.
    cbn [app load_loop readmode model_param_of]. rewrite Hload, Hfit.
    apply IH; try reflexivity; assumption.
Qed.


End LoadingFacts.



(** ** train, then load_models *)

Lemma find_unique {A : Type} (l : list (string * A)) (name : string) (a : A) :
  NoDup (map fst l) ->
  In (name, a) l ->
  find (fun f => String.eqb (fst f) name) l = Some (name, a).
Proof.
  induction l as [|[n0 a0] l IH]; cbn [map fst find In]; [contradiction|].
  intros Hnd Hin. inversion Hnd as [|? ? Hnot Hnd']; subst.
  destruct (String.eqb_spec n0 name) as [->|Hne].
  - destruct Hin as [[= ->]|Hin]; [reflexivity|].
    exfalso. apply Hnot. apply (in_map fst) in Hin. exact Hin.
  - destruct Hin as [[= -> _]|Hin]; [contradiction|]. now apply IH.
Qed.

(** Under names that are pairwise different, a file holds what was written
    under its name. *)
Lemma torch_load_nth {C : Collaborators} (files : list (string * Checkpoint))
  (k : nat) (name : string) (ck : Checkpoint) :
  NoDup (map fst files) ->
  nth_error files k = Some (name, ck) ->
  torch_load files name = Some ck.
Proof.
  intros Hnd Hk. unfold torch_load.
  rewrite (find_unique (rev files) name ck); [reflexivity| |].
  - rewrite map_rev. now apply NoDup_rev.
  - apply -> in_rev. eapply nth_error_In. exact Hk.
Qed.

(** The checkpoints of a run: their names differ, and the checkpoint at
    position [k] is that of the epoch [start_epoch + k]. *)
Lemma train_saved {C : Collaborators} (model : Params)
  (optimizer : OptState * Params) (scheduler : SchedState)
  (trn_x val_x : Tensor2) (trn_weights val_weights : option Tensor1)
  (p : param) (modeldir save_name : string) :
  weights_fit trn_weights trn_x ->
  weights_fit val_weights val_x ->
  loaders_ok trn_x val_x ->
  evalmode p <> 0%Z ->
  validated (start_epoch p) (evalmode p) = true ->
  exists s,
    train model optimizer scheduler trn_x val_x trn_weights val_weights p
          modeldir save_name = (s, Ok tt)
    /\ NoDup (map fst (saved s))
    /\ forall k name ck,
        nth_error (saved s) k = Some (name, ck) ->
        name = checkpoint_name modeldir save_name (start_epoch p + Z.of_nat k)
        /\ ck_epoch ck = (start_epoch p + Z.of_nat k)%Z.
Proof.
  intros Ht Hv Hl Hem H0.
  destruct (train_ok model optimizer scheduler trn_x val_x trn_weights
              val_weights p modeldir save_name Ht Hv Hl Hem H0)
    as (s & done & rest & Hrun & Hsplit & Hruns & _).
  exists s. split; [exact Hrun|].
  pose proof (epochs_run_checkpoints _ _ _ _ _ _ Hruns) as (Hn & _).
  cbn [saved map app] in Hn.
  destruct (epochs_run_histories _ _ _ _ _ _ Hruns)
    as (new & tl & vl & Hsv & _ & _ & _ & _ & Hck).
  cbn [saved app] in Hsv. split.
  - rewrite Hn. apply Finite.Injective_map_NoDup.
    + intros e e'. apply checkpoint_name_inj.
    + apply (NoDup_prefix done rest). rewrite <- Hsplit. apply range_NoDup.
  - intros k name ck Hk. rewrite Hsv in Hk.
    destruct (Hck k name ck Hk) as (e & He & -> & -> & _).
    apply (prefix_nth _ rest) in He. rewrite <- Hsplit in He.
    apply range_nth in He. now subst e.
Qed.


(** The example run with three epochs keeps its second checkpoint
    under the name of epoch 1. *)
Lemma still_run_saved_1 s :
  still_run (mkParam 0 3 (Fin 1) 2) = (s, Ok tt) ->
  exists ck, nth_error (saved s) 1
             = Some ("checkpoint/dbnf_1.pth"%string, ck).
Proof.
  intros Hrun.
  destruct still_run_3 as (s' & s0 & s1 & Hrun' & (_ & _ & _ & H0)
                              & (_ & _ & _ & H1) & (_ & _ & _ & H2)).
  assert (Hs : s' = s).
  { pose proof (eq_trans (eq_sym Hrun') Hrun) as He.
    exact (f_equal fst He). }
  subst s'. cbn [saved app] in H0.
  eexists. rewrite H2, H1, H0. reflexivity.
Qed.

